(** * Pycro-Manager application notebooks: scan geometry, acquisition events,
      controller polling and the napari frame queue

    The development embeds the executable logic of two notebooks:

    - the stage-scanning OPM acquisition notebook (module [OPM]): the scan
      geometry cell, the [post_hardware_hook] polling loop and the cell that
      builds the acquisition-event list;
    - [PSF_viewer.ipynb] (module [PSFViewer]): [place_data],
      [display_napari], [yield_img] and [start_acq].

    Python floats are IEEE 754 binary64 numbers.  They are modelled by the
    executable specification of binary floating point of the standard
    library ([spec_float], precision 53, maximal exponent 1024), so that the
    arithmetic of the notebooks is evaluated bit for bit. *)

From Stdlib Require Import ZArith Lia Bool.
From Stdlib Require Import Floats.SpecFloat.
From stdpp Require Import base relations gmap strings list sorting.

Local Open Scope Z_scope.

(** ** Binary64 arithmetic as Python and NumPy use it *)

Module Float64.

Abbreviation float := spec_float.

Definition prec : Z := 53.
Definition emax : Z := 1024.

Definition add : float -> float -> float := SFadd prec emax.
Definition sub : float -> float -> float := SFsub prec emax.
Definition mul : float -> float -> float := SFmul prec emax.
Definition div : float -> float -> float := SFdiv prec emax.

(** Conversion of a Python [int] that takes part in a float operation. *)
Definition of_int (n : Z) : float := binary_normalize prec emax n 0 false.

(** An operation of Python that gives a value or raises an exception. *)
Inductive raising (A : Type) :=
| returns (a : A)
| raises (exception : string).
Arguments returns {A} a.
Arguments raises {A} exception.

(** A Python [int] as an operand that is not rounded: the integer itself
    is the mantissa, whatever its size. *)
Definition exact_int (n : Z) : float :=
  match n with
  | Z0 => S754_zero false
  | Zpos m => S754_finite false m 0
  | Zneg m => S754_finite true m 0
  end.

(** A decimal literal [n / 10^k] is read as the nearest binary64 number;
    the correctly rounded quotient of two exactly representable integers
    is that number. *)
Definition literal (n : Z) (k : Z) : float := div (of_int n) (of_int (10 ^ k)).

(** [a / b] for two Python [int]s: the exact quotient of the integers
    rounded once to the nearest binary64 number, ties to even;
    [ZeroDivisionError] for [b = 0] and [OverflowError] when the rounded
    quotient is beyond the largest binary64 number. *)
Definition int_true_div (a b : Z) : raising float :=
  if b =? 0 then raises "ZeroDivisionError"
  else
    match SFdiv prec emax (exact_int a) (exact_int b) with
    | S754_infinity _ | S754_nan => raises "OverflowError"
    | q => returns q
    end.

(** The conversion of a Python [int] to a float when it meets a float in
    an arithmetic operation: [OverflowError] when the integer rounds beyond
    the largest binary64 number. *)
Definition int_to_float (n : Z) : raising float :=
  match of_int n with
  | S754_infinity _ | S754_nan => raises "OverflowError"
  | x => returns x
  end.

(** [np.abs] on a float. *)
Definition np_abs : float -> float := SFabs.

(** [np.rint]: round to the nearest integer, ties to even; the result is
    still a float.  Zeros, infinities and NaN are returned unchanged, and
    a finite number with a non-negative exponent is already an integer. *)
Definition rint_mantissa (m : positive) (e : Z) : Z :=
  let d := 2 ^ (- e) in
  let q := Z.pos m / d in
  let r := Z.pos m mod d in
  match 2 * r ?= d with
  | Lt => q
  | Gt => q + 1
  | Eq => if Z.even q then q else q + 1
  end.

Definition np_rint (x : float) : float :=
  match x with
  | S754_finite s m e =>
      if 0 <=? e then x
      else binary_normalize prec emax (cond_Zopp s (rint_mantissa m e)) 0 s
  | _ => x
  end.

(** [np.round(x, decimals)] for positive [decimals]: NumPy multiplies by
    [10**decimals], applies [rint] and divides again. *)
Definition np_round (x : float) (decimals : Z) : float :=
  div (np_rint (mul x (of_int (10 ^ decimals)))) (of_int (10 ^ decimals)).

(** [.astype(int)]: the C conversion of a double to a signed 64-bit
    integer.  A finite value is truncated towards zero; NaN, the
    infinities and values outside the 64-bit range give the most negative
    integer, as the conversion instruction of x86-64 does. *)
Definition int64_min : Z := - 2 ^ 63.

Definition truncate (x : float) : option Z :=
  match x with
  | S754_zero _ => Some 0
  | S754_finite s m e =>
      Some (cond_Zopp s (if 0 <=? e then Z.pos m * 2 ^ e
                         else Z.pos m / 2 ^ (- e)))
  | _ => None
  end.

Definition fits_int64 (n : Z) : bool := (int64_min <=? n) && (n <? 2 ^ 63).

Definition astype_int (x : float) : Z :=
  match truncate x with
  | Some n => if fits_int64 n then n else int64_min
  | None => int64_min
  end.

(** The sign bit of a float; NaN counts as unsigned here. *)
Definition sign_bit (x : float) : bool :=
  match x with
  | S754_zero s | S754_infinity s | S754_finite s _ _ => s
  | S754_nan => false
  end.

(** Zeros and finite numbers. *)
Definition is_finite (x : float) : bool :=
  match x with S754_zero _ | S754_finite _ _ _ => true | _ => false end.

(** Numbers other than zero: finite non-zero numbers and the infinities. *)
Definition is_nonzero_number (x : float) : bool :=
  match x with S754_finite _ _ _ | S754_infinity _ => true | _ => false end.

(** The conversion to a 64-bit integer is defined on [x]. *)
Definition castable (x : float) : bool :=
  match truncate x with
  | Some n => fits_int64 n
  | None => false
  end.

End Float64.

Import Float64.

(** ** The stage-scanning OPM acquisition notebook *)

Module OPM.

(** *** User parameters (cells "Acquisition parameters set by user") *)

(** [channel_states = [state_405, state_488, state_561, state_635, state_730]] *)
Record lasers := {
  state_405 : Z;
  state_488 : Z;
  state_561 : Z;
  state_635 : Z;
  state_730 : Z
}.

Definition channel_states (l : lasers) : list Z :=
  [state_405 l; state_488 l; state_561 l; state_635 l; state_730 l].

(** [ROI = [ROI_0, ROI_1, ROI_2, ROI_3]], in pixels. *)
Record roi := { ROI_0 : Z; ROI_1 : Z; ROI_2 : Z; ROI_3 : Z }.

Record parameters := {
  ROI : roi;
  pixel_size_um : float;
  actual_readout_ms : float;
  scan_axis_step_um : float;
  scan_axis_start_um : float;
  scan_axis_end_um : float;
  tile_axis_start_um : float;
  tile_axis_end_um : float;
  height_axis_start_um : float;
  height_axis_end_um : float
}.

(** *** Cell "Calculate stage limits and speeds" *)

Section Geometry.

(** [np.sin] is a library function; the geometry is stated for any
    implementation of it. *)
Variable np_sin : float -> float.

Variable p : parameters.

Definition np_pi : float := S754_finite false 7074237752028440 (-51).

(* scan axis setup *)
Definition scan_axis_step_mm := div (scan_axis_step_um p) (of_int 1000).
Definition scan_axis_start_mm := div (scan_axis_start_um p) (of_int 1000).
Definition scan_axis_end_mm := div (scan_axis_end_um p) (of_int 1000).
Definition scan_axis_range_um :=
  np_abs (sub (scan_axis_end_um p) (scan_axis_start_um p)).
Definition scan_axis_range_mm := div scan_axis_range_um (of_int 1000).
Definition actual_exposure_s := div (actual_readout_ms p) (of_int 1000).
(* [scan_axis_step_mm / actual_exposure_s] divides two Python floats, which
   raises [ZeroDivisionError] on a zero divisor: [None] stands for it.  The
   other quotients of the cell divide by a literal that is not zero or have
   a NumPy float as dividend, and raise nothing. *)
Definition scan_axis_speed : option float :=
  match actual_exposure_s with
  | S754_zero _ => None
  | _ => Some (np_round (div scan_axis_step_mm actual_exposure_s) 2)
  end.
Definition scan_axis_positions : Z :=
  astype_int (np_rint (div scan_axis_range_mm scan_axis_step_mm)).

(* tile axis setup *)
Definition tile_axis_overlap := literal 2 1.
Definition tile_axis_range_um :=
  np_abs (sub (tile_axis_end_um p) (tile_axis_start_um p)).
Definition tile_axis_range_mm := div tile_axis_range_um (of_int 1000).
Definition tile_axis_ROI := mul (of_int (ROI_3 (ROI p))) (pixel_size_um p).
Definition tile_axis_step_um :=
  np_round (mul tile_axis_ROI (sub (of_int 1) tile_axis_overlap)) 2.
Definition tile_axis_step_mm := div tile_axis_step_um (of_int 1000).
Definition tile_axis_positions_rounded : Z :=
  astype_int (np_rint (div tile_axis_range_mm tile_axis_step_mm)).
(* if tile_axis_positions rounded to zero, make sure acquisition visits
   at least one position *)
Definition tile_axis_positions : Z :=
  if tile_axis_positions_rounded =? 0 then 1
  else tile_axis_positions_rounded.

(* height axis setup *)
Definition height_axis_overlap := literal 2 1.
Definition height_axis_range_um :=
  np_abs (sub (height_axis_end_um p) (height_axis_start_um p)).
Definition height_axis_range_mm := div height_axis_range_um (of_int 1000).
Definition height_axis_ROI :=
  mul (mul (of_int (ROI_2 (ROI p))) (pixel_size_um p))
      (np_sin (mul (of_int 30) (div np_pi (of_int 180)))).
Definition height_axis_step_um :=
  np_round (mul height_axis_ROI (sub (of_int 1) height_axis_overlap)) 2.
Definition height_axis_step_mm := div height_axis_step_um (of_int 1000).
Definition height_axis_positions_rounded : Z :=
  astype_int (np_rint (div height_axis_range_mm height_axis_step_mm)).
(* if height_axis_positions rounded to zero, make sure acquisition
   visits at least one position *)
Definition height_axis_positions : Z :=
  if height_axis_positions_rounded =? 0 then 1
  else height_axis_positions_rounded.

End Geometry.

(** The value NumPy returns for [np.sin(30*(np.pi/180.))], the binary64
    number just below one half; every other argument is mapped to NaN, as
    the notebook calls [np.sin] at this argument only. *)
Definition sin_30_degrees : float := S754_finite false 9007199254740991 (-54).

Definition np_sin_at_30 (x : float) : float :=
  match x with
  | S754_finite false 4716158501352293 (-53) => sin_30_degrees
  | _ => S754_nan
  end.

(** The parameters written in the notebook ([actual_readout_ms] is not
    assigned there; the exposure of 5 ms stands in for it). *)
Definition notebook_parameters : parameters := {|
  ROI := {| ROI_0 := 1024; ROI_1 := 0; ROI_2 := 256; ROI_3 := 1600 |};
  pixel_size_um := literal 115 3;
  actual_readout_ms := of_int 5;
  scan_axis_step_um := literal 2 1;
  scan_axis_start_um := of_int 0;
  scan_axis_end_um := of_int 5000;
  tile_axis_start_um := of_int 0;
  tile_axis_end_um := of_int 5000;
  height_axis_start_um := of_int 0;
  height_axis_end_um := of_int 30
|}.

(** The same geometry with the two ends of each range exchanged. *)
Definition swap_ranges (p : parameters) : parameters := {|
  ROI := ROI p;
  pixel_size_um := pixel_size_um p;
  actual_readout_ms := actual_readout_ms p;
  scan_axis_step_um := scan_axis_step_um p;
  scan_axis_start_um := scan_axis_end_um p;
  scan_axis_end_um := scan_axis_start_um p;
  tile_axis_start_um := tile_axis_end_um p;
  tile_axis_end_um := tile_axis_start_um p;
  height_axis_start_um := height_axis_end_um p;
  height_axis_end_um := height_axis_start_um p
|}.

(** A geometry whose three ranges all have length zero. *)
Definition zero_length_ranges : parameters := {|
  ROI := ROI notebook_parameters;
  pixel_size_um := pixel_size_um notebook_parameters;
  actual_readout_ms := actual_readout_ms notebook_parameters;
  scan_axis_step_um := scan_axis_step_um notebook_parameters;
  scan_axis_start_um := of_int 0;
  scan_axis_end_um := of_int 0;
  tile_axis_start_um := of_int 0;
  tile_axis_end_um := of_int 0;
  height_axis_start_um := of_int 0;
  height_axis_end_um := of_int 0
|}.


(** Every position count is at least one. *)
Definition counts_at_least_one (np_sin : float -> float) (p : parameters)
    : Prop :=
  1 <= scan_axis_positions p /\ 1 <= tile_axis_positions p /\
  1 <= height_axis_positions np_sin p.

(** *** Cell "Create event structure" *)

(** [for i in range(n): body], threading the variables the body updates.
    [range(n)] is empty when [n] is not positive. *)
Definition for_range {S : Type} (n : Z) (body : Z -> S -> S) (s : S) : S :=
  foldl (fun acc i => body i acc) s (seqZ 0 n).

(** The values stored in an acquisition event: a stage position, the
    ['axes'] dictionary, or the ['channel'] dictionary. *)
Inductive value :=
| VFloat (f : float)
| VAxes (d : gmap string Z)
| VChannel (d : gmap string string).

Abbreviation event := (gmap string value).

Local Open Scope string_scope.
Local Open Scope Z_scope.
Local Open Scope list_scope.

(** The [if (c==0): ... elif (c==4): ...] chain: the laser configuration
    of channel [c].  The chain has no [else]; the channel loop runs over
    [range(len(channel_states))], that is over 0..4, where it is
    exhaustive. *)
Definition channel_config (c : Z) : option string :=
  if c =? 0 then Some "405nm"
  else if c =? 1 then Some "488nm"
  else if c =? 2 then Some "561nm"
  else if c =? 3 then Some "637nm"
  else if c =? 4 then Some "730nm"
  else None.

(** Reading an event back: the logical indices stored under ['axes'], the
    stage targets and the laser configuration. *)
Definition axis_index (e : event) (axis : string) : option Z :=
  match e !! "axes" with
  | Some (VAxes d) => d !! axis
  | _ => None
  end.

Definition stage_target (e : event) (axis : string) : option float :=
  match e !! axis with
  | Some (VFloat f) => Some f
  | _ => None
  end.

Definition channel_target (e : event) (key : string) : option string :=
  match e !! "channel" with
  | Some (VChannel d) => d !! key
  | _ => None
  end.

(** Inverse of the configuration chain. *)
Definition config_channel (config : string) : option Z :=
  if decide (config = "405nm") then Some 0
  else if decide (config = "488nm") then Some 1
  else if decide (config = "561nm") then Some 2
  else if decide (config = "637nm") then Some 3
  else if decide (config = "730nm") then Some 4
  else None.

(** The loop indices [(y, z, c, x)] under which an event was created,
    recovered from its fields. *)
Definition loop_indices (e : event) : option (Z * Z * Z * Z) :=
  y ← axis_index e "y";
  z ← axis_index e "z";
  c ← channel_target e "config" ≫= config_channel;
  x ← axis_index e "x";
  Some (y, z, c, x).

(** An event that names a logical index for each of the four axes.  The
    logical indices of an event are the integer entries of its ['axes']
    dictionary, its other entries being stage positions and the channel
    dictionary of strings; so a fourth index is an entry of ['axes'] beside
    those of the three stage axes. *)
Definition names_four_axis_indices (e : event) : Prop :=
  is_Some (axis_index e "x") /\ is_Some (axis_index e "y") /\
  is_Some (axis_index e "z") /\
  exists key, key ≠ "x" /\ key ≠ "y" /\ key ≠ "z" /\ is_Some (axis_index e key).

(** Lexicographic order on loop indices, outermost loop first. *)
Definition loop_before (i j : Z * Z * Z * Z) : Prop :=
  let '(y1, z1, c1, x1) := i in
  let '(y2, z2, c2, x2) := j in
  y1 < y2 \/ (y1 = y2 /\ (z1 < z2 \/ (z1 = z2 /\
    (c1 < c2 \/ (c1 = c2 /\ x1 < x2))))).

Section EventStructure.

(** The variables of earlier cells that the cell reads. *)
Variables tile_axis_positions height_axis_positions scan_axis_positions : Z.
Variables tile_axis_start_um tile_axis_step_um : float.
Variables height_axis_start_um height_axis_step_um : float.
Variable scan_axis_start_um : float.
Variable laser_states : lasers.

(** The dictionary assigned to [evt] in each branch of the chain. *)
Definition evt (config : string) (x y z : Z)
    (tile_position_um height_position_um : float) : event :=
  {[ "axes" := VAxes {[ "x" := x; "y" := y; "z" := z ]};
     "x" := VFloat scan_axis_start_um;
     "y" := VFloat tile_position_um;
     "z" := VFloat height_position_um;
     "channel" := VChannel {[ "group" := "Coherent-State";
                              "config" := config ]} ]}.

(** Body of the innermost loop: only create events if the user sets the
    laser to active. *)
Definition scan_body (y z c : Z) (tile_position_um height_position_um : float)
    (x : Z) (events : list event) : list event :=
  match channel_states laser_states !! Z.to_nat c with
  | Some 1 =>
      match channel_config c with
      | Some config =>
          events ++ [evt config x y z tile_position_um height_position_um]
      | None => events
      end
  | _ => events
  end.

Definition channel_body (y z : Z) (tile_position_um height_position_um : float)
    (c : Z) (events : list event) : list event :=
  for_range scan_axis_positions
    (scan_body y z c tile_position_um height_position_um) events.

Definition height_body (y : Z) (tile_position_um : float)
    (z : Z) (events : list event) : list event :=
  (* update height (z) axis position *)
  let height_position_um :=
    add height_axis_start_um (mul height_axis_step_um (of_int z)) in
  for_range (Z.of_nat (length (channel_states laser_states)))
    (channel_body y z tile_position_um height_position_um) events.

Definition tile_body (y : Z) (events : list event) : list event :=
  (* update tile (y) axis position *)
  let tile_position_um :=
    add tile_axis_start_um (mul tile_axis_step_um (of_int y)) in
  for_range height_axis_positions (height_body y tile_position_um) events.

(** [events = []] followed by the four nested loops. *)
Definition events : list event :=
  for_range tile_axis_positions tile_body [].

(** The stage targets of tile [y] and height [z]. *)
Definition tile_position_um (y : Z) : float :=
  add tile_axis_start_um (mul tile_axis_step_um (of_int y)).

Definition height_position_um (z : Z) : float :=
  add height_axis_start_um (mul height_axis_step_um (of_int z)).

(** The events the loop order describes, as a comprehension: tile
    outermost, then height, then channel, then scan step; one event for an
    active channel, none for an inactive one. *)
Definition created (y z c x : Z) : list event :=
  match channel_states laser_states !! Z.to_nat c with
  | Some 1 =>
      match channel_config c with
      | Some config =>
          [evt config x y z (tile_position_um y) (height_position_um z)]
      | None => []
      end
  | _ => []
  end.

Definition events_in_loop_order : list event :=
  y ← seqZ 0 tile_axis_positions;
  z ← seqZ 0 height_axis_positions;
  c ← seqZ 0 (Z.of_nat (length (channel_states laser_states)));
  x ← seqZ 0 scan_axis_positions;
  created y z c x.

(** Number of channels whose state is 1. *)
Definition active_channels : nat :=
  length (filter (λ state, state = 1) (channel_states laser_states)).

(** Number of active channels before channel [c]. *)
Definition active_before (c : Z) : nat :=
  length (filter (λ state, state = 1)
            (take (Z.to_nat c) (channel_states laser_states))).

(** The events of one hardware-triggered scan: all scan steps at tile [y],
    height [z] and laser configuration [config]. *)
Definition scan_events (config : string) (y z : Z) : list event :=
  (λ x, evt config x y z (tile_position_um y) (height_position_um z))
    <$> seqZ 0 scan_axis_positions.

(** Position in the list of the first event of the scan at [(y, z, c)]. *)
Definition scan_offset (y z c : Z) : nat :=
  (((Z.to_nat y * Z.to_nat height_axis_positions + Z.to_nat z)
    * active_channels + active_before c) * Z.to_nat scan_axis_positions)%nat.

(** What an event of the list holds, for the loop indices [(y, z, c, x)]
    under which it was created: the three stage axes under ['axes'], the
    three stage targets, the laser configuration of channel [c], and
    nothing else. *)
Definition event_content (e : event) (y z c x : Z) : Prop :=
  e !! "axes" = Some (VAxes {[ "x" := x; "y" := y; "z" := z ]}) /\
  e !! "x" = Some (VFloat scan_axis_start_um) /\
  e !! "y" = Some (VFloat (tile_position_um y)) /\
  e !! "z" = Some (VFloat (height_position_um z)) /\
  (exists config,
     e !! "channel" = Some (VChannel {[ "group" := "Coherent-State";
                                        "config" := config ]}) /\
     channel_config c = Some config /\ config_channel config = Some c) /\
  dom e = {[ "axes"; "x"; "y"; "z"; "channel" ]} /\
  ¬ names_four_axis_indices e.

End EventStructure.

(** Laser selections: the one of the notebook, and one with two lasers. *)
Definition one_laser : lasers := {|
  state_405 := 0; state_488 := 0; state_561 := 1; state_635 := 0;
  state_730 := 0
|}.

Definition two_lasers : lasers := {|
  state_405 := 0; state_488 := 1; state_561 := 1; state_635 := 0;
  state_730 := 0
|}.

(** The event list of the notebook run on parameters [p] and laser
    selection [l]. *)
Definition notebook_events (np_sin : float -> float) (p : parameters)
    (l : lasers) : list event :=
  events (tile_axis_positions p) (height_axis_positions np_sin p)
    (scan_axis_positions p)
    (tile_axis_start_um p) (tile_axis_step_um p)
    (height_axis_start_um p) (height_axis_step_um np_sin p)
    (scan_axis_start_um p) l.

(** [e1] was created in an earlier pass of the loops than [e2]. *)
Definition event_before (e1 e2 : event) : Prop :=
  match loop_indices e1, loop_indices e2 with
  | Some i, Some j => loop_before i j
  | _, _ => False
  end.

(** *** [post_hardware_hook]: wait until the Tiger controller is ready *)

(** Calls made on the Micro-Manager core, and pauses. *)
Inductive call :=
| set_property (device property val : string)
| get_property (device property : string)
| sleep (ms : Z).

(** State of the hook: the local variable [ready], the number of status
    responses read so far, the time slept and the calls issued. *)
Record hook_state := {
  ready : string;
  reads : nat;
  slept_ms : Z;
  calls : list call
}.

Section Polling.

(** The controller: the value of ['SerialResponse'] at the [k]-th read. *)
Variable SerialResponse : nat -> string.

(** One pass through the body of [while(ready!='N')]. *)
Definition poll (s : hook_state) : hook_state := {|
  ready := SerialResponse (reads s);
  reads := S (reads s);
  slept_ms := slept_ms s + 500;
  calls := calls s ++ [set_property "TigerCommHub" "SerialCommand" "STATUS";
                       get_property "TigerCommHub" "SerialResponse";
                       sleep 500]
|}.

(** The loop as a step relation: a step exists exactly when the loop
    condition holds. *)
Inductive poll_step : hook_state -> hook_state -> Prop :=
| poll_busy s : ready s ≠ "N" -> poll_step s (poll s).

(** A state from which the loop has exited. *)
Definition loop_exited (s : hook_state) : Prop := ready s = "N".

(** The loop run with a bound on the number of passes; [None] when the
    bound is used up with the loop still running. *)
Fixpoint wait_ready (fuel : nat) (s : hook_state) : option hook_state :=
  if decide (ready s = "N") then Some s
  else match fuel with
       | O => None
       | S fuel' => wait_ready fuel' (poll s)
       end.

(** The state after [k] passes. *)
Definition after_polls (k : nat) (s : hook_state) : hook_state :=
  Nat.iter k poll s.

(** State on entry of the loop: repeated commands turned on, [ready='B']. *)
Definition hook_entry : hook_state := {|
  ready := "B";
  reads := 0;
  slept_ms := 0;
  calls := [set_property "TigerCommHub" "OnlySendSerialCommandOnChange" "No"]
|}.

(** After the loop: repeated commands turned off. *)
Definition hook_exit (s : hook_state) : hook_state := {|
  ready := ready s;
  reads := reads s;
  slept_ms := slept_ms s;
  calls := calls s ++
    [set_property "TigerCommHub" "OnlySendSerialCommandOnChange" "Yes"]
|}.

(** [post_hardware_hook(event, bridge, event_queue)]: returns [event]. *)
Definition post_hardware_hook {E : Type} (fuel : nat) (event : E)
    : option (E * hook_state) :=
  s ← wait_ready fuel hook_entry;
  Some (event, hook_exit s).

End Polling.

(** The calls of one pass of the polling loop. *)
Definition poll_calls : list call :=
  [set_property "TigerCommHub" "SerialCommand" "STATUS";
   get_property "TigerCommHub" "SerialResponse";
   sleep 500].

(** *** The cell that sets up the Tiger controller *)

(** The cell sends five serial commands to the controller, each followed by
    [ready='B'] and the polling loop.  [calls] records the traffic with
    ['TigerCommHub']; the two properties of the PLogic card that the cell
    sets first go to another device and are not recorded. *)
Section TigerSetup.

Variable SerialResponse : nat -> string.

(** Python's [str] of a float. *)
Variable str : float -> string.

Definition issue (c : call) (s : hook_state) : hook_state := {|
  ready := ready s;
  reads := reads s;
  slept_ms := slept_ms s;
  calls := calls s ++ [c]
|}.

Definition serial_command (command : string) : call :=
  set_property "TigerCommHub" "SerialCommand" command.

Definition repeated_commands (val : string) : call :=
  set_property "TigerCommHub" "OnlySendSerialCommandOnChange" val.

(** [core.set_property('TigerCommHub','SerialCommand',command)], then
    [ready='B'] and [while(ready!='N')]. *)
Definition send_and_wait (fuel : nat) (command : string) (s : hook_state)
    : option hook_state :=
  let s1 := issue (serial_command command) s in
  wait_ready SerialResponse fuel
    {| ready := "B"; reads := reads s1; slept_ms := slept_ms s1;
       calls := calls s1 |}.

(** The five commands, for the scan speed and the scan range in mm. *)
Definition speed_command (scan_axis_speed : float) : string :=
  "SPEED X=" +:+ str scan_axis_speed.

Definition range_command (scan_axis_start_mm scan_axis_end_mm : float)
    : string :=
  "1SCANR X=" +:+ str scan_axis_start_mm +:+ " Y=" +:+ str scan_axis_end_mm
  +:+ " R=25".

Definition setup_tiger (fuel : nat)
    (scan_axis_speed scan_axis_start_mm scan_axis_end_mm : float)
    (s : hook_state) : option hook_state :=
  let s := issue (repeated_commands "No") s in
  s ← send_and_wait fuel "SPEED Y=.25" s;
  s ← send_and_wait fuel "SPEED X=.25" s;
  let s := issue (repeated_commands "Yes") s in
  let s := issue (repeated_commands "No") s in
  s ← send_and_wait fuel (speed_command scan_axis_speed) s;
  s ← send_and_wait fuel "1SCAN X? Y=0 Z=9 F=0" s;
  s ← send_and_wait fuel
        (range_command scan_axis_start_mm scan_axis_end_mm) s;
  Some (issue (repeated_commands "Yes") s).

End TigerSetup.

(** The state of the core before the cell runs. *)
Definition no_calls : hook_state := {|
  ready := "B";
  reads := 0;
  slept_ms := 0;
  calls := []
|}.

(** A controller that is busy at every second read. *)
Definition ready_at_odd_reads (k : nat) : string :=
  if Nat.even k then "B" else "N".

(** Two controllers: one that reports ['N'] at the fourth read, and one
    that reports ['B'] for ever. *)
Definition ready_at_fourth_read (k : nat) : string :=
  if (k <? 3)%nat then "B" else "N".

Definition always_busy (k : nat) : string := "B".

End OPM.

(** ** The PSF viewer notebook ([PSF_viewer.ipynb]) *)

Module PSFViewer.

Local Open Scope string_scope.
Local Open Scope Z_scope.
Local Open Scope list_scope.

(** A call either returns or raises; the global variables keep the
    changes made before the exception. *)
Inductive outcome (S : Type) :=
| Returned (s : S)
| Raised (exception : string) (s : S).
Arguments Returned {S} s.
Arguments Raised {S} exception s.

Definition state_of {S : Type} (o : outcome S) : S :=
  match o with Returned s | Raised _ s => s end.

(** [a[i]] for a Python integer index on a sequence of length [len]:
    negative indices count from the end; [None] is [IndexError]. *)
Definition py_index (len : nat) (i : Z) : option nat :=
  if (0 <=? i) && (i <? Z.of_nat len) then Some (Z.to_nat i)
  else if (- Z.of_nat len <=? i) && (i <? 0) then Some (Z.to_nat (i + Z.of_nat len))
  else None.

(** The worker threads of the notebook. *)
Inductive worker := append_img | yield_img.

Section Viewer.

(** Sample type of the images, and its conversion to the [float64] samples
    of the display buffer. *)
Context {pixel : Type}.
Variable to_float64 : pixel -> float.

(** [clip = [clip_0, clip_1]] and the number of layers of the viewer. *)
Variables clip_0 clip_1 : nat.
Variable layers : nat.

(** [data.shape[1:]]: the shape of one slice of the buffer.  It is fixed
    when the array is created; assignments to a slice never change it. *)
Variables slice_rows slice_cols : nat.

(** A queue element [[channels[1], z_range[3], np.ravel(image)]]. *)
Record element := {
  color : Z;
  z_pos : Z;
  raveled : list pixel
}.

(** The global variables of the notebook.  [img_queue] holds the queued
    elements, oldest first, and the count of unfinished tasks of the queue;
    [data] is the xyz stack, one image (a list of rows) per z slice;
    [workers] lists the worker threads started so far. *)
Record globals := {
  acq_running : bool;
  img_queue : list element;
  unfinished_tasks : nat;
  z_range : list Z;
  channels : list Z;
  data : list (list (list float));
  workers : list worker
}.

Definition set_acq_running (b : bool) (g : globals) : globals :=
  {| acq_running := b; img_queue := img_queue g;
     unfinished_tasks := unfinished_tasks g; z_range := z_range g;
     channels := channels g; data := data g; workers := workers g |}.

Definition set_img_queue (q : list element) (n : nat) (g : globals) : globals :=
  {| acq_running := acq_running g; img_queue := q;
     unfinished_tasks := n; z_range := z_range g;
     channels := channels g; data := data g; workers := workers g |}.

Definition set_z_range (zr : list Z) (g : globals) : globals :=
  {| acq_running := acq_running g; img_queue := img_queue g;
     unfinished_tasks := unfinished_tasks g; z_range := zr;
     channels := channels g; data := data g; workers := workers g |}.

Definition set_channels (ch : list Z) (g : globals) : globals :=
  {| acq_running := acq_running g; img_queue := img_queue g;
     unfinished_tasks := unfinished_tasks g; z_range := z_range g;
     channels := ch; data := data g; workers := workers g |}.

Definition set_data (d : list (list (list float))) (g : globals) : globals :=
  {| acq_running := acq_running g; img_queue := img_queue g;
     unfinished_tasks := unfinished_tasks g; z_range := z_range g;
     channels := channels g; data := d; workers := workers g |}.

Definition set_workers (w : list worker) (g : globals) : globals :=
  {| acq_running := acq_running g; img_queue := img_queue g;
     unfinished_tasks := unfinished_tasks g; z_range := z_range g;
     channels := channels g; data := data g; workers := w |}.

(** [img_queue.put(e)] *)
Definition put (e : element) (g : globals) : globals :=
  set_img_queue (img_queue g ++ [e]) (S (unfinished_tasks g)) g.

(** [np.ravel(image)] of a two-dimensional image. *)
Definition ravel (image : list (list pixel)) : list pixel := concat image.

(** *** [place_data] *)

Definition place_data (image : list (list pixel)) (g : globals)
    : outcome globals :=
  match channels g !! 1%nat, z_range g !! 3%nat with
  | Some c, Some z =>
      (* img_queue.put([channels[1], z_range[3], np.ravel(image)]) *)
      let g1 := put {| color := c; z_pos := z; raveled := ravel image |} g in
      (* z_range[3] = (z_range[3]+1) % z_range[2] *)
      match z_range g1 !! 2%nat with
      | None => Raised "IndexError" g1
      | Some slices =>
          if slices =? 0 then Raised "ZeroDivisionError" g1
          else
            let z' := (z + 1) mod slices in
            let g2 := set_z_range (<[3%nat := z']> (z_range g1)) g1 in
            (* if z_range[3] == 0: *)
            if z' =? 0 then
              (* channels[1] = (channels[1]+1) % channels[0] *)
              match channels g2 !! 0%nat with
              | None => Raised "IndexError" g2
              | Some count =>
                  if count =? 0 then Raised "ZeroDivisionError" g2
                  else Returned
                         (set_channels
                            (<[1%nat := (c + 1) mod count]> (channels g2)) g2)
              end
            else Returned g2
      end
  | _, _ => Raised "IndexError" g
  end.

(** *** [display_napari] *)

(** [np.reshape(a, (rows, cols))] of a flat sequence, row-major; [None]
    is the [ValueError] raised when the sizes do not match. *)
Fixpoint rows_of {A : Type} (rows cols : nat) (a : list A) : list (list A) :=
  match rows with
  | O => []
  | S rows' => take cols a :: rows_of rows' cols (drop cols a)
  end.

Definition reshape {A : Type} (a : list A) (rows cols : nat)
    : option (list (list A)) :=
  if decide (length a = (rows * cols)%nat) then Some (rows_of rows cols a)
  else None.

(** [np.squeeze(image)] for [image] of shape [(rows, cols)], broadcast to
    the shape [(slice_rows, slice_cols)] of a slice of the buffer, as the
    assignment [data[z_pos] = np.squeeze(image)] does.  [np.squeeze] drops
    every axis of length one: with [rows = 1] or [cols = 1] the value has
    shape [()] (one element) or [(n,)] with [n = rows * cols], and its
    elements are those of the image in order; otherwise it keeps the shape
    [(rows, cols)].  The assignment broadcasts the value: counted from the
    last axis, each axis of the value must have the length of the slice's
    axis or length one.  [None] is the [ValueError] raised otherwise. *)
Definition broadcast_squeezed {A : Type} (rows cols : nat)
    (image : list (list A)) : option (list (list A)) :=
  if (rows =? 1)%nat || (cols =? 1)%nat then
    match concat image with
    | [x] => Some (replicate slice_rows (replicate slice_cols x))
    | xs =>
        if (length xs =? slice_cols)%nat then Some (replicate slice_rows xs)
        else None
    end
  else if (rows =? slice_rows)%nat && (cols =? slice_cols)%nat then Some image
  else None.

Definition display_napari (pos_img : option element) (g : globals)
    : outcome globals :=
  match pos_img with
  | None => Returned g
  | Some e =>
      (* image = np.reshape(pos_img[2:], (clip[0], clip[1])) *)
      match reshape (raveled e) clip_0 clip_1 with
      | None => Raised "ValueError" g
      | Some image =>
          (* data[z_pos] = np.squeeze(image): the index is resolved first,
             then the value, converted to the buffer's sample type, is
             broadcast into the slice *)
          match py_index (length (data g)) (z_pos e) with
          | None => Raised "IndexError" g
          | Some i =>
              match broadcast_squeezed clip_0 clip_1
                      (map (map to_float64) image) with
              | None => Raised "ValueError" g
              | Some slice =>
                  let g1 := set_data (<[i := slice]> (data g)) g in
                  (* layer = viewer.layers[color]; layer.data = data *)
                  match py_index layers (color e) with
                  | None => Raised "IndexError" g1
                  | Some _ =>
                      (* img_queue.task_done() *)
                      match unfinished_tasks g1 with
                      | O => Raised "ValueError" g1
                      | S n => Returned (set_img_queue (img_queue g1) n g1)
                      end
                  end
              end
          end
      end
  end.

(** *** [start_acq] and [stop_acq] *)

(** The lines printed, and the outcome on the global variables. *)
Definition start_acq (g : globals) : list string * outcome globals :=
  if negb (acq_running g) then
    if decide (3 < length (z_range g))%nat then
      (* z_range[3] = 0; acq_running = True; both workers are started *)
      (["starting threads..."],
       Returned
         (set_workers (workers g ++ [append_img; yield_img])
            (set_acq_running true
               (set_z_range (<[3%nat := 0]> (z_range g)) g))))
    else (["starting threads..."], Raised "IndexError" g)
  else
    (["starting threads..."; "acquisition already running!"], Returned g).

(** [stop_acq] as far as the global variables go: it clears the flag (the
    stage is then stopped and moved back through the core). *)
Definition stop_acq (g : globals) : globals := set_acq_running false g.

(** *** The [yield_img] worker *)

(** Control points of the generator. *)
Inductive control :=
| outer_test   (* while acq_running: *)
| sleeping     (* time.sleep(sleep_time) *)
| inner_test   (* while img_queue.qsize() > 1: *)
| inner_get    (* yield img_queue.get(block = False) *)
| drain_test   (* while img_queue.qsize() > 0: *)
| drain_get    (* yield img_queue.get(block = False) *)
| done         (* print("acquisition done") *)
| queue_empty_raised.

(** A [yield_img] worker seen with the global variables: the control point
    of the worker and the elements it has yielded to [display_napari],
    oldest first. *)
Record system := {
  vars : globals;
  at_ : control;
  yielded : list element
}.

(** [img_queue.get(block = False)] followed by [yield]. *)
Definition get_and_yield (next : control) (s : system) : system :=
  match img_queue (vars s) with
  | e :: q =>
      {| vars := set_img_queue q (unfinished_tasks (vars s)) (vars s);
         at_ := next;
         yielded := yielded s ++ [e] |}
  | [] => {| vars := vars s; at_ := queue_empty_raised; yielded := yielded s |}
  end.

Definition goto (c : control) (s : system) : system :=
  {| vars := vars s; at_ := c; yielded := yielded s |}.

(** One atomic action of the worker; [None] once it has ended. *)
Definition yield_img_step (s : system) : option system :=
  match at_ s with
  | outer_test =>
      Some (goto (if acq_running (vars s) then sleeping else drain_test) s)
  | sleeping => Some (goto inner_test s)
  | inner_test =>
      Some (goto (if (1 <? length (img_queue (vars s)))%nat
                  then inner_get else outer_test) s)
  | inner_get => Some (get_and_yield inner_test s)
  | drain_test =>
      Some (goto (if (0 <? length (img_queue (vars s)))%nat
                  then drain_get else done) s)
  | drain_get => Some (get_and_yield drain_test s)
  | done | queue_empty_raised => None
  end.






(** *** Calls in a row *)

(** [for a in l: body(a)]: an exception leaves the loop. *)
Fixpoint for_each {A : Type} (body : A -> globals -> outcome globals)
    (l : list A) (g : globals) : outcome globals :=
  match l with
  | [] => Returned g
  | a :: l' =>
      match body a g with
      | Returned g' => for_each body l' g'
      | Raised exception g' => Raised exception g'
      end
  end.

(** [place_data] called once for each image of a sequence, as the
    acquisition engine and [simulate_data] do. *)
Definition place_all (images : list (list (list pixel))) (g : globals)
    : outcome globals :=
  for_each place_data images g.

(** The channel and slice under which the [i]-th next frame is queued,
    counted from active slice [z] and active channel [c]. *)
Definition frame_slice (z slices : Z) (i : nat) : Z :=
  (z + Z.of_nat i) mod slices.

Definition frame_color (z c slices count : Z) (i : nat) : Z :=
  (c + (z + Z.of_nat i) / slices) mod count.

(** *** [grab_image] *)

(** [a[start:stop]] on a sequence: negative bounds count from the end and
    bounds beyond the ends are clipped. *)
Definition slice_bound (len : nat) (i : Z) : nat :=
  if i <? 0 then Z.to_nat (Z.max (i + Z.of_nat len) 0)
  else Z.to_nat (Z.min i (Z.of_nat len)).

Definition py_slice {A : Type} (start stop : Z) (a : list A) : list A :=
  let first := slice_bound (length a) start in
  let last := slice_bound (length a) stop in
  take (last - first) (drop first a).

(** [np.shape] of a two-dimensional array given by its rows. *)
Definition shape {A : Type} (image : list (list A)) : nat * nat :=
  (length image, match image with row :: _ => length row | [] => O end).

(** The central part [image[(size[0]-clip[0])//2:(size[0]+clip[0])//2,
    (size[1]-clip[1])//2:(size[1]+clip[1])//2]]. *)
Definition image_clipped (image : list (list pixel)) : list (list pixel) :=
  let size := shape image in
  let size_0 := Z.of_nat (fst size) in
  let size_1 := Z.of_nat (snd size) in
  map (py_slice ((size_1 - Z.of_nat clip_1) / 2) ((size_1 + Z.of_nat clip_1) / 2))
      (py_slice ((size_0 - Z.of_nat clip_0) / 2) ((size_0 + Z.of_nat clip_0) / 2)
         image).

(** [grab_image(image, metadata)]: the pair it returns when [place_data]
    returns, and the outcome on the global variables. *)
Definition grab_image {M : Type} (image : list (list pixel)) (metadata : M)
    (g : globals) : (list (list pixel) * M) * outcome globals :=
  ((image, metadata), place_data (image_clipped image) g).

(** *** Several [yield_img] workers *)

(** Every Start that finds the flag cleared creates a [yield_img]
    generator; the generators of earlier runs live on until they end.  A
    viewer is its global variables with the control point and the yielded
    elements of each generator. *)
Record viewer := {
  shared : globals;
  generators : list (control * list element)
}.

(** What can happen next: a button is pressed, the producer places a
    frame, or generator [i] takes its next action. *)
Inductive action :=
| press_start
| press_stop
| frame_placed (image : list (list pixel))
| resume (i : nat).

Definition is_yield_img (w : worker) : bool :=
  match w with yield_img => true | append_img => false end.

Definition act (a : action) (v : viewer) : viewer :=
  match a with
  | press_start =>
      let g' := state_of (snd (start_acq (shared v))) in
      let started := drop (length (workers (shared v))) (workers g') in
      {| shared := g';
         generators :=
           generators v ++
           map (λ _, (outer_test, [])) (filter (λ w, is_yield_img w = true) started) |}
  | press_stop => {| shared := stop_acq (shared v); generators := generators v |}
  | frame_placed image =>
      {| shared := state_of (place_data image (shared v));
         generators := generators v |}
  | resume i =>
      match generators v !! i with
      | Some (c, y) =>
          match yield_img_step {| vars := shared v; at_ := c; yielded := y |} with
          | Some s' =>
              {| shared := vars s';
                 generators := <[i := (at_ s', yielded s')]> (generators v) |}
          | None => v
          end
      | None => v
      end
  end.

Definition run (schedule : list action) (v : viewer) : viewer :=
  foldl (λ v' a, act a v') v schedule.

(** The images that the producer places in a schedule, in order, and the
    elements that the generators of a viewer have taken from the queue. *)
Definition placed (schedule : list action) : list (list (list pixel)) :=
  omap (λ a, match a with frame_placed image => Some image | _ => None end)
       schedule.

Definition taken (v : viewer) : list element :=
  mjoin (snd <$> generators v).


End Viewer.

(** An example: images of 2 x 2 integer samples, a buffer of three slices,
    slice 2 of 3 and channel 1 of 2 active, three frames queued and the
    acquisition running. *)
Definition zero_slice : list (list float) :=
  [[S754_zero false; S754_zero false]; [S754_zero false; S754_zero false]].

Definition frame (c z : Z) (samples : list Z) : @element Z :=
  {| color := c; z_pos := z; raveled := samples |}.

Definition example_globals : @globals Z := {|
  acq_running := true;
  img_queue := [frame 0 2 [1; 2; 3; 4]; frame 1 0 [5; 6; 7; 8];
                frame 1 1 [9; 10; 11; 12]];
  unfinished_tasks := 3;
  z_range := [0; 50; 3; 2];
  channels := [2; 1];
  data := [zero_slice; zero_slice; zero_slice];
  workers := [append_img; yield_img]
|}.




(** *** [simulate_image] and [simulate_data] *)

(** [np.ones(size) * b] for [size = [size_0, size_1]]. *)
Definition ones_times (size_0 size_1 : nat) (b : float) : list (list float) :=
  replicate size_0 (replicate size_1 (mul (of_int 1) b)).

Definition simulate_image (b : float) (size_0 size_1 : nat)
    (g : @globals float) : outcome (@globals float) :=
  place_data (ones_times size_0 size_1 b) g.

(** [(ii+1) * (zz+1) / ((z_range[2]+1)) * clim[1]]: the product of the two
    integers is exact, its quotient by the third is the true division of
    Python [int]s, and the product of the float with the integer [clim[1]]
    converts the integer first. *)
Definition brightness (ii zz slices clim_1 : Z) : raising float :=
  match int_true_div ((ii + 1) * (zz + 1)) (slices + 1) with
  | raises exception => raises exception
  | returns q =>
      match int_to_float clim_1 with
      | raises exception => raises exception
      | returns c => returns (mul q c)
      end
  end.

(** [simulate_data(ii, z_range)] with the global [z_range]: one image for
    each [zz in range(z_range[2])], of the size [clip]. *)
Definition simulate_data (clim_1 : Z) (clip_0 clip_1 : nat) (ii : Z)
    (g : @globals float) : outcome (@globals float) :=
  match z_range g !! 2%nat with
  | None => Raised "IndexError" g
  | Some slices =>
      for_each
        (λ zz g',
           match z_range g' !! 2%nat with
           | None => Raised "IndexError" g'
           | Some slices' =>
               match brightness ii zz slices' clim_1 with
               | raises exception => Raised exception g'
               | returns b => simulate_image b clip_0 clip_1 g'
               end
           end)
        (seqZ 0 slices) g
  end.

(** The viewer while simulated data is placed: slice 1 of 3 and channel 1
    of 2 active. *)
Definition simulated_globals : @globals float := {|
  acq_running := true;
  img_queue := [];
  unfinished_tasks := 0;
  z_range := [0; 50; 3; 1];
  channels := [2; 1];
  data := [zero_slice; zero_slice; zero_slice];
  workers := [append_img; yield_img]
|}.

(** A viewer that has not been started: three slices, two channels, an
    empty queue and no worker. *)
Definition idle_viewer : @viewer Z := {|
  shared := {|
    acq_running := false;
    img_queue := [];
    unfinished_tasks := 0;
    z_range := [0; 50; 3; 0];
    channels := [2; 0];
    data := [zero_slice; zero_slice; zero_slice];
    workers := []
  |};
  generators := []
|}.

(** Start, two frames, Stop and, while the first worker drains the queue,
    Start again and a third frame: the first worker takes both remaining
    frames and the second worker, which saw two frames queued, then finds
    the queue empty. *)
Definition quick_restart : list (@action Z) :=
  [press_start; resume 0; frame_placed [[1; 2]; [3; 4]];
   frame_placed [[5; 6]; [7; 8]]; press_stop;
   resume 0; resume 0; resume 0; resume 0; resume 0;
   press_start; frame_placed [[9; 10]; [11; 12]];
   resume 1; resume 1; resume 1;
   resume 0; resume 0; resume 0; resume 0;
   resume 1].



End PSFViewer.

(** * Properties of the notebooks *)

Import OPM.

Local Open Scope string_scope.
Local Open Scope Z_scope.
Local Open Scope list_scope.

(** ** Signs of binary64 results *)

Lemma sign_bit_round_aux m e l :
  sign_bit (binary_round_aux prec emax false m e l) = false.
Proof.
  unfold binary_round_aux.
  destruct (shr_fexp prec emax m e l) as [mrs' e'].
  destruct (shr_fexp prec emax _ e' loc_Exact) as [mrs'' e''].
  destruct (shr_m mrs''); [reflexivity | | reflexivity].
  destruct (e'' <=? emax - prec); reflexivity.
Qed.

Lemma sign_bit_of_int n : 0 <= n -> sign_bit (of_int n) = false.
Proof.
  intros Hn. unfold of_int, binary_normalize.
  destruct n as [|q|q]; [reflexivity | | lia].
  unfold binary_round.
  destruct (shl_align q 0 _) as [mz ez]. apply sign_bit_round_aux.
Qed.

Lemma sign_bit_mul x y :
  sign_bit x = false -> sign_bit y = false -> sign_bit (mul x y) = false.
Proof.
  destruct x as [sx|sx| |sx mx ex], y as [sy|sy| |sy my ey]; simpl;
    intros Hx Hy; subst; try reflexivity.
  apply sign_bit_round_aux.
Qed.

Lemma sign_bit_div x y :
  sign_bit x = false -> sign_bit y = false -> sign_bit (div x y) = false.
Proof.
  destruct x as [sx|sx| |sx mx ex], y as [sy|sy| |sy my ey]; simpl;
    intros Hx Hy; subst; try reflexivity.
  unfold div, SFdiv.
  destruct (SFdiv_core_binary prec emax (Z.pos mx) ex (Z.pos my) ey) as [[mz ez] lz].
  apply sign_bit_round_aux.
Qed.

Lemma sign_bit_np_abs x : sign_bit (np_abs x) = false.
Proof. destruct x; reflexivity. Qed.

Lemma rint_mantissa_nonneg m e : 0 <= rint_mantissa m e.
Proof.
  unfold rint_mantissa.
  assert (Hd : 0 <= 2 ^ (- e)) by (apply Z.pow_nonneg; lia).
  assert (Hq : 0 <= Z.pos m / 2 ^ (- e)) by (apply Z_div_nonneg_nonneg; lia).
  destruct (2 * _ ?= _); [destruct (Z.even _) | |]; lia.
Qed.

Lemma sign_bit_np_rint x : sign_bit x = false -> sign_bit (np_rint x) = false.
Proof.
  destruct x as [sx|sx| |sx mx ex]; simpl; intros Hs; try assumption.
  destruct (0 <=? ex); [assumption|]. subst sx. simpl.
  apply sign_bit_of_int, rint_mantissa_nonneg.
Qed.


Lemma sign_bit_np_round x d :
  sign_bit x = false -> sign_bit (np_round x d) = false.
Proof.
  intros Hx. unfold np_round.
  assert (Hp : sign_bit (of_int (10 ^ d)) = false)
    by (apply sign_bit_of_int, Z.pow_nonneg; lia).
  apply sign_bit_div; [apply sign_bit_np_rint, sign_bit_mul|]; assumption.
Qed.

Lemma astype_int_nonneg x :
  sign_bit x = false -> castable x = true -> 0 <= astype_int x.
Proof.
  unfold castable, astype_int.
  destruct x as [sx|sx| |sx mx ex]; cbn [truncate sign_bit].
  - intros _ _. change (fits_int64 0) with true. lia.
  - discriminate.
  - discriminate.
  - intros -> Hfit. rewrite Hfit. cbn [cond_Zopp].
    destruct (0 <=? ex).
    + apply Z.mul_nonneg_nonneg; [lia | apply Z.pow_nonneg; lia].
    + apply Z_div_nonneg_nonneg; [lia | apply Z.pow_nonneg; lia].
Qed.

Lemma sub_diag x : is_finite x = true -> sub x x = S754_zero false.
Proof.
  destruct x as [[|]| | |[|] m e]; simpl; try discriminate; intros _;
    try reflexivity; unfold sub, SFsub; rewrite Z.sub_diag; reflexivity.
Qed.

Lemma div_zero_nonzero y :
  is_nonzero_number y = true -> exists s, div (S754_zero false) y = S754_zero s.
Proof. destruct y; simpl; try discriminate; intros _; eexists; reflexivity. Qed.

(** A zero-length range divided by a step that is a non-zero number
    rounds to zero positions. *)
Lemma zero_range_rounds_to_zero a step :
  is_finite a = true -> is_nonzero_number step = true ->
  astype_int (np_rint (div (div (np_abs (sub a a)) (of_int 1000)) step)) = 0.
Proof.
  intros Ha Hs. rewrite (sub_diag a Ha).
  change (div (np_abs (S754_zero false)) (of_int 1000)) with (S754_zero false).
  destruct (div_zero_nonzero step Hs) as [s ->]. reflexivity.
Qed.

Lemma rounded_quotient_nonneg range step :
  sign_bit range = false -> sign_bit step = false ->
  castable (np_rint (div range step)) = true ->
  0 <= astype_int (np_rint (div range step)).
Proof.
  intros Hr Hs. apply astype_int_nonneg, sign_bit_np_rint, sign_bit_div; assumption.
Qed.

Lemma range_mm_sign a b :
  sign_bit (div (np_abs (sub a b)) (of_int 1000)) = false.
Proof. apply sign_bit_div; [apply sign_bit_np_abs | reflexivity]. Qed.

Lemma one_minus_overlap_sign :
  sign_bit (sub (of_int 1) (literal 2 1)) = false.
Proof. reflexivity. Qed.

Section GeometryFacts.
Variable np_sin : float -> float.
Variable p : parameters.

Lemma scan_axis_step_mm_sign :
  sign_bit (scan_axis_step_um p) = false -> sign_bit (scan_axis_step_mm p) = false.
Proof. intros H. apply sign_bit_div; [assumption | reflexivity]. Qed.

Lemma tile_axis_step_mm_sign :
  sign_bit (pixel_size_um p) = false -> 0 <= ROI_3 (ROI p) ->
  sign_bit (tile_axis_step_mm p) = false.
Proof.
  intros Hpx Hroi. unfold tile_axis_step_mm, tile_axis_step_um, tile_axis_ROI.
  apply sign_bit_div; [|reflexivity].
  apply sign_bit_np_round, sign_bit_mul; [|apply one_minus_overlap_sign].
  apply sign_bit_mul; [apply sign_bit_of_int|]; assumption.
Qed.

Lemma height_axis_step_mm_sign :
  sign_bit (pixel_size_um p) = false -> 0 <= ROI_2 (ROI p) ->
  sign_bit (np_sin (mul (of_int 30) (div np_pi (of_int 180)))) = false ->
  sign_bit (height_axis_step_mm np_sin p) = false.
Proof.
  intros Hpx Hroi Hsin.
  unfold height_axis_step_mm, height_axis_step_um, height_axis_ROI.
  apply sign_bit_div; [|reflexivity].
  apply sign_bit_np_round, sign_bit_mul; [|apply one_minus_overlap_sign].
  apply sign_bit_mul; [|assumption].
  apply sign_bit_mul; [apply sign_bit_of_int|]; assumption.
Qed.

Lemma clamp_nonzero n : (if n =? 0 then 1 else n) <> 0.
Proof. destruct (Z.eqb_spec n 0); lia. Qed.

Lemma clamp_at_least_one n : 0 <= n -> 1 <= (if n =? 0 then 1 else n).
Proof. destruct (Z.eqb_spec n 0); lia. Qed.

(** C1 (as amended): the tile-axis and height-axis position counts are
    clamped to a minimum of one: neither is ever zero; each is at least one
    when the pixel size and the ROI are not negative and the rounded
    quotient fits a 64-bit integer; and a zero-length tile or height range
    gives exactly one position when the step is a non-zero number.  The
    scan-axis count is not negative when the scan step is not negative and
    the rounded quotient fits a 64-bit integer. *)
Theorem tile_and_height_counts_clamped :
  tile_axis_positions p <> 0 /\
  height_axis_positions np_sin p <> 0 /\
  (sign_bit (pixel_size_um p) = false -> 0 <= ROI_3 (ROI p) ->
   castable (np_rint (div (tile_axis_range_mm p) (tile_axis_step_mm p))) = true ->
   1 <= tile_axis_positions p) /\
  (sign_bit (pixel_size_um p) = false -> 0 <= ROI_2 (ROI p) ->
   sign_bit (np_sin (mul (of_int 30) (div np_pi (of_int 180)))) = false ->
   castable (np_rint (div (height_axis_range_mm p)
                          (height_axis_step_mm np_sin p))) = true ->
   1 <= height_axis_positions np_sin p) /\
  (sign_bit (scan_axis_step_um p) = false ->
   castable (np_rint (div (scan_axis_range_mm p) (scan_axis_step_mm p))) = true ->
   0 <= scan_axis_positions p) /\
  (is_finite (tile_axis_start_um p) = true ->
   tile_axis_end_um p = tile_axis_start_um p ->
   is_nonzero_number (tile_axis_step_mm p) = true ->
   tile_axis_positions p = 1) /\
  (is_finite (height_axis_start_um p) = true ->
   height_axis_end_um p = height_axis_start_um p ->
   is_nonzero_number (height_axis_step_mm np_sin p) = true ->
   height_axis_positions np_sin p = 1).
Proof.
  repeat split.
  - apply clamp_nonzero.
  - apply clamp_nonzero.
  - intros Hpx Hroi Hc. apply clamp_at_least_one.
    apply rounded_quotient_nonneg;
      [apply range_mm_sign | apply tile_axis_step_mm_sign | ]; assumption.
  - intros Hpx Hroi Hsin Hc. apply clamp_at_least_one.
    apply rounded_quotient_nonneg;
      [apply range_mm_sign | apply height_axis_step_mm_sign | ]; assumption.
  - intros Hs Hc.
    apply rounded_quotient_nonneg;
      [apply range_mm_sign | apply scan_axis_step_mm_sign | ]; assumption.
  - intros Hf He Hs. unfold tile_axis_positions, tile_axis_positions_rounded,
      tile_axis_range_mm, tile_axis_range_um.
    rewrite He, (zero_range_rounds_to_zero _ _ Hf Hs). reflexivity.
  - intros Hf He Hs. unfold height_axis_positions, height_axis_positions_rounded,
      height_axis_range_mm, height_axis_range_um.
    rewrite He, (zero_range_rounds_to_zero _ _ Hf Hs). reflexivity.
Qed.

End GeometryFacts.

(** The geometry of the notebook, and the one with three zero-length
    ranges. *)
Lemma tile_and_height_counts_clamped_witness :
  (1 <= tile_axis_positions notebook_parameters /\
   1 <= height_axis_positions np_sin_at_30 notebook_parameters /\
   0 <= scan_axis_positions notebook_parameters) /\
  (1 <= tile_axis_positions zero_length_ranges /\
   1 <= height_axis_positions np_sin_at_30 zero_length_ranges /\
   0 <= scan_axis_positions zero_length_ranges /\
   tile_axis_positions zero_length_ranges = 1 /\
   height_axis_positions np_sin_at_30 zero_length_ranges = 1).
Proof.
  split.
  - destruct (tile_and_height_counts_clamped np_sin_at_30 notebook_parameters)
      as (_ & _ & Ht & Hh & Hs & _).
    split; [apply Ht; vm_compute; congruence|].
    split; [apply Hh; vm_compute; congruence|].
    apply Hs; vm_compute; congruence.
  - destruct (tile_and_height_counts_clamped np_sin_at_30 zero_length_ranges)
      as (_ & _ & Ht & Hh & Hs & Ht0 & Hh0).
    split; [apply Ht; vm_compute; congruence|].
    split; [apply Hh; vm_compute; congruence|].
    split; [apply Hs; vm_compute; congruence|].
    split; [apply Ht0; vm_compute; congruence|].
    apply Hh0; vm_compute; congruence.
Defined.

(** A zero-length scan range gives no scan position, so the three counts
    are not all at least one. *)
Lemma zero_length_scan_has_no_position :
  scan_axis_range_um zero_length_ranges = S754_zero false /\
  scan_axis_positions zero_length_ranges = 0 /\
  ¬ counts_at_least_one np_sin_at_30 zero_length_ranges.
Proof.
  split; [reflexivity|]. split; [reflexivity|].
  intros [Hscan _]. vm_compute in Hscan. congruence.
Qed.

(** C2: a scan-axis range of 5000 um with a step of 0.2 um gives 25000
    scan positions. *)
Theorem scan_range_5000_step_0_2_gives_25000 (p : parameters) :
  scan_axis_step_um p = literal 2 1 ->
  scan_axis_range_um p = of_int 5000 ->
  scan_axis_positions p = 25000.
Proof.
  intros Hstep Hrange.
  unfold scan_axis_positions, scan_axis_range_mm, scan_axis_step_mm.
  rewrite Hstep, Hrange. vm_compute. reflexivity.
Qed.

Lemma scan_range_5000_step_0_2_gives_25000_witness :
  scan_axis_positions notebook_parameters = 25000.
Proof.
  apply scan_range_5000_step_0_2_gives_25000; vm_compute; reflexivity.
Defined.

(** ** Loops that append *)

Section Loops.
Context {A B : Type}.

Lemma foldl_append (f : A -> list B) (body : A -> list B -> list B) l acc :
  (forall i acc', body i acc' = acc' ++ f i) ->
  foldl (fun acc' i => body i acc') acc l = acc ++ (l ≫= f).
Proof.
  intros Hbody. revert acc.
  induction l as [|i l IH]; intros acc.
  - simpl. by rewrite app_nil_r.
  - rewrite bind_cons. simpl. rewrite IH, Hbody. by rewrite <- app_assoc.
Qed.

Lemma length_bind_const (f : A -> list B) l k :
  (forall a, a ∈ l -> length (f a) = k) ->
  length (l ≫= f) = (length l * k)%nat.
Proof.
  induction l as [|a l IH]; intros Hk; [done|].
  rewrite bind_cons, length_app, Hk, IH by set_solver. done.
Qed.

Lemma StronglySorted_bind (R : relation A) (R' : relation B)
    (f : A -> list B) l :
  StronglySorted R l ->
  (forall a, a ∈ l -> StronglySorted R' (f a)) ->
  (forall a a' b b', R a a' -> b ∈ f a -> b' ∈ f a' -> R' b b') ->
  StronglySorted R' (l ≫= f).
Proof.
  intros Hl Hin Hcross.
  induction Hl as [|a l Hl IH Ha]; [constructor|].
  rewrite bind_cons. apply StronglySorted_app_2.
  - intros b b' Hb Hb'. apply list_elem_of_bind in Hb' as (a' & Hb' & Ha').
    rewrite Forall_forall in Ha. eauto.
  - apply Hin. set_solver.
  - apply IH. intros a' Ha'. apply Hin. set_solver.
Qed.

End Loops.

Lemma for_range_append {B : Type} (f : Z -> list B) body n acc :
  (forall i acc', body i acc' = acc' ++ f i) ->
  for_range n body acc = acc ++ (seqZ 0 n ≫= f).
Proof. apply foldl_append. Qed.

Lemma StronglySorted_seqZ m n : StronglySorted Z.lt (seqZ m n).
Proof.
  remember (Z.to_nat n) as k eqn:Hk. revert m n Hk.
  induction k as [|k IH]; intros m n Hk.
  - rewrite seqZ_nil by lia. constructor.
  - rewrite seqZ_cons by lia. constructor.
    + apply IH. lia.
    + apply Forall_seqZ. lia.
Qed.

(** ** The acquisition-event list *)

Section EventFacts.
Variables T H S : Z.
Variables tile_start tile_step height_start height_step scan_start : float.
Variable l : lasers.

Local Abbreviation events :=
  (events T H S tile_start tile_step height_start height_step scan_start l).
Local Abbreviation created :=
  (created tile_start tile_step height_start height_step scan_start l).
Local Abbreviation evt := (evt scan_start).
Local Abbreviation tile_position_um := (tile_position_um tile_start tile_step).
Local Abbreviation height_position_um :=
  (height_position_um height_start height_step).

Lemma scan_body_created y z c x acc :
  scan_body scan_start l y z c (tile_position_um y) (height_position_um z) x acc
  = acc ++ created y z c x.
Proof.
  unfold scan_body, OPM.created.
  destruct (channel_states l !! Z.to_nat c) as [[|[]|]|]; try by rewrite app_nil_r.
  destruct (channel_config c); by rewrite ?app_nil_r.
Qed.

(** The nested loops build the comprehension. *)
Lemma events_refine :
  events = events_in_loop_order T H S tile_start tile_step height_start
             height_step scan_start l.
Proof.
  unfold OPM.events, OPM.events_in_loop_order.
  rewrite (for_range_append (fun y =>
    z ← seqZ 0 H;
    c ← seqZ 0 (Z.of_nat (length (channel_states l)));
    x ← seqZ 0 S; created y z c x)); [done|].
  intros y acc. unfold tile_body.
  apply for_range_append. intros z acc'. unfold height_body.
  apply for_range_append. intros c acc''. unfold channel_body.
  apply for_range_append. intros x acc'''. apply scan_body_created.
Qed.

Lemma created_cases y z c x :
  created y z c x =
    if decide (channel_states l !! Z.to_nat c = Some 1) then
      match channel_config c with
      | Some config =>
          [evt config x y z (tile_position_um y) (height_position_um z)]
      | None => []
      end
    else [].
Proof.
  unfold OPM.created.
  destruct (channel_states l !! Z.to_nat c) as [[|[]|]|]; case_decide;
    congruence.
Qed.

Lemma elem_of_created e y z c x :
  e ∈ created y z c x ->
  channel_states l !! Z.to_nat c = Some 1 /\
  exists config, channel_config c = Some config /\
    e = evt config x y z (tile_position_um y) (height_position_um z).
Proof.
  rewrite created_cases. case_decide; [|by intros ?%elem_of_nil].
  destruct (channel_config c) as [config|]; [|by intros ?%elem_of_nil].
  intros ->%list_elem_of_singleton. eauto.
Qed.

Lemma elem_of_events e :
  e ∈ events ->
  exists y z c x config,
    0 <= y < T /\ 0 <= z < H /\ 0 <= x < S /\
    channel_states l !! Z.to_nat c = Some 1 /\
    channel_config c = Some config /\
    e = evt config x y z (tile_position_um y) (height_position_um z).
Proof.
  rewrite events_refine. unfold OPM.events_in_loop_order.
  intros (y & (z & (c & (x & He & Hx)%list_elem_of_bind & Hc)%list_elem_of_bind
                 & Hz)%list_elem_of_bind & Hy)%list_elem_of_bind.
  apply elem_of_seqZ in Hx, Hz, Hy.
  apply elem_of_created in He as (Hact & config & Hcfg & ->).
  exists y, z, c, x, config. repeat split; try lia; done.
Qed.

Lemma config_channel_config c config :
  channel_config c = Some config -> config_channel config = Some c.
Proof.
  unfold channel_config.
  repeat match goal with
         | |- context [c =? ?k] =>
             destruct (Z.eqb_spec c k) as [->|?];
             [intros [= <-]; reflexivity|]
         end.
  discriminate.
Qed.

Lemma loop_indices_evt config c x y z ty hz :
  channel_config c = Some config ->
  loop_indices (evt config x y z ty hz) = Some (y, z, c, x).
Proof.
  intros Hc%config_channel_config.
  unfold loop_indices, axis_index, channel_target, OPM.evt.
  by simplify_map_eq.
Qed.

(** Events of one pass of each loop. *)
Local Abbreviation scan_pass y z c := (seqZ 0 S ≫= created y z c).
Local Abbreviation channel_pass y z :=
  (seqZ 0 (Z.of_nat (length (channel_states l))) ≫= λ c, scan_pass y z c).
Local Abbreviation height_pass y := (seqZ 0 H ≫= λ z, channel_pass y z).

Lemma indices_in_scan_pass e y z c :
  e ∈ scan_pass y z c -> exists x, loop_indices e = Some (y, z, c, x).
Proof.
  intros (x & (_ & config & Hc & ->)%elem_of_created & _)%list_elem_of_bind.
  exists x. by apply loop_indices_evt.
Qed.

Lemma indices_in_channel_pass e y z :
  e ∈ channel_pass y z -> exists c x, loop_indices e = Some (y, z, c, x).
Proof.
  intros (c & He & _)%list_elem_of_bind.
  exists c. by apply indices_in_scan_pass.
Qed.

Lemma indices_in_height_pass e y :
  e ∈ height_pass y -> exists z c x, loop_indices e = Some (y, z, c, x).
Proof.
  intros (z & He & _)%list_elem_of_bind.
  exists z. by apply indices_in_channel_pass.
Qed.

Lemma scan_pass_sorted y z c : StronglySorted event_before (scan_pass y z c).
Proof.
  apply (StronglySorted_bind Z.lt); [apply StronglySorted_seqZ | |].
  - intros x _. rewrite created_cases.
    case_decide; [destruct (channel_config c)|]; repeat constructor.
  - intros x x' e e' Hlt (_ & config & Hc & ->)%elem_of_created
      (_ & config' & Hc' & ->)%elem_of_created.
    unfold event_before.
    rewrite (loop_indices_evt _ c), (loop_indices_evt _ c) by done.
    simpl. lia.
Qed.

Lemma channel_pass_sorted y z : StronglySorted event_before (channel_pass y z).
Proof.
  apply (StronglySorted_bind Z.lt); [apply StronglySorted_seqZ | |].
  - intros c _. apply scan_pass_sorted.
  - intros c c' e e' Hlt [x He]%indices_in_scan_pass
      [x' He']%indices_in_scan_pass.
    unfold event_before. rewrite He, He'. simpl. lia.
Qed.

Lemma height_pass_sorted y : StronglySorted event_before (height_pass y).
Proof.
  apply (StronglySorted_bind Z.lt); [apply StronglySorted_seqZ | |].
  - intros z _. apply channel_pass_sorted.
  - intros z z' e e' Hlt (c & x & He)%indices_in_channel_pass
      (c' & x' & He')%indices_in_channel_pass.
    unfold event_before. rewrite He, He'. simpl. lia.
Qed.

Lemma events_sorted : StronglySorted event_before events.
Proof.
  rewrite events_refine.
  apply (StronglySorted_bind Z.lt); [apply StronglySorted_seqZ | |].
  - intros y _. apply height_pass_sorted.
  - intros y y' e e' Hlt (z & c & x & He)%indices_in_height_pass
      (z' & c' & x' & He')%indices_in_height_pass.
    unfold event_before. rewrite He, He'. simpl. lia.
Qed.

(** Lengths. *)
Lemma length_scan_pass y z c :
  length (scan_pass y z c) =
    if decide (channel_states l !! Z.to_nat c = Some 1 /\
               is_Some (channel_config c))
    then Z.to_nat S else 0%nat.
Proof.
  rewrite (length_bind_const _ _
    (if decide (channel_states l !! Z.to_nat c = Some 1 /\
                is_Some (channel_config c)) then 1%nat else 0%nat)).
  - rewrite length_seqZ. case_decide; lia.
  - intros x _. rewrite created_cases.
    destruct (decide (_ /\ _)) as [[Ha [config Hc]]|Hn].
    + rewrite decide_True by done. by rewrite Hc.
    + destruct (decide (channel_states l !! Z.to_nat c = Some 1)) as [Ha|];
        [|done].
      destruct (channel_config c) eqn:Hc; [|done]. destruct Hn. eauto.
Qed.

Lemma length_active_term state c n :
  is_Some (channel_config c) ->
  (if decide (Some state = Some 1 /\ is_Some (channel_config c))
   then n else 0%nat)
  = (length (filter (λ st, st = 1%Z) [state]) * n)%nat.
Proof.
  intros Hc. destruct (decide (state = 1)) as [->|Hne].
  - rewrite decide_True by done. rewrite filter_cons_True by done. simpl. lia.
  - rewrite decide_False by (intros [[= ?] _]; done).
    rewrite filter_cons_False by done. reflexivity.
Qed.

Lemma length_channel_pass y z :
  length (channel_pass y z) = (active_channels l * Z.to_nat S)%nat.
Proof.
  change (seqZ 0 (Z.of_nat (length (channel_states l)))) with [0; 1; 2; 3; 4].
  rewrite !bind_cons, !length_app; cbv beta. rewrite !length_scan_pass.
  change (channel_states l !! Z.to_nat 0) with (Some (state_405 l)).
  change (channel_states l !! Z.to_nat 1) with (Some (state_488 l)).
  change (channel_states l !! Z.to_nat 2) with (Some (state_561 l)).
  change (channel_states l !! Z.to_nat 3) with (Some (state_635 l)).
  change (channel_states l !! Z.to_nat 4) with (Some (state_730 l)).
  rewrite !length_active_term by (vm_compute; eauto).
  unfold active_channels, channel_states.
  change [state_405 l; state_488 l; state_561 l; state_635 l; state_730 l]
    with ([state_405 l] ++ [state_488 l] ++ [state_561 l] ++ [state_635 l]
          ++ [state_730 l]).
  rewrite !filter_app, !length_app.
  change (length ([] ≫= _)) with 0%nat. lia.
Qed.

Lemma length_events :
  length events =
    (Z.to_nat T * Z.to_nat H * active_channels l * Z.to_nat S)%nat.
Proof.
  rewrite events_refine. unfold OPM.events_in_loop_order.
  rewrite (length_bind_const _ _
             (Z.to_nat H * (active_channels l * Z.to_nat S))%nat).
  - rewrite length_seqZ. lia.
  - intros y _. rewrite (length_bind_const _ _ (active_channels l * Z.to_nat S)%nat).
    + by rewrite length_seqZ.
    + intros z _. apply length_channel_pass.
Qed.


Lemma axis_index_evt config x y z ty hz key :
  axis_index (evt config x y z ty hz) key
  = ({[ "x" := x; "y" := y; "z" := z ]} : gmap string Z) !! key.
Proof. unfold axis_index, OPM.evt. by simplify_map_eq. Qed.

Lemma evt_names_three_axes config x y z ty hz :
  ¬ names_four_axis_indices (evt config x y z ty hz).
Proof.
  intros (_ & _ & _ & key & Hx & Hy & Hz & Hsome).
  rewrite axis_index_evt in Hsome.
  rewrite !lookup_insert_ne, lookup_singleton_ne in Hsome by done.
  by destruct Hsome.
Qed.

Lemma evt_content config c x y z :
  channel_config c = Some config ->
  event_content tile_start tile_step height_start height_step scan_start
    (evt config x y z (tile_position_um y) (height_position_um z)) y z c x.
Proof.
  intros Hc. unfold event_content.
  split_and!; try (unfold OPM.evt; by simplify_map_eq).
  - exists config. split_and!; [unfold OPM.evt; by simplify_map_eq | done |].
    by apply config_channel_config.
  - apply evt_names_three_axes.
Qed.

(** C4 (as amended): every event of the list holds the logical indices of
    the three stage axes, scan step [x], tile [y] and height [z], under
    ['axes'], and no further axis index; the stage targets ['x'], ['y'] and
    ['z']; and the laser configuration of its channel under ['channel'],
    from which the channel index can be read back. *)
Theorem every_event_names_indices_and_targets :
  Forall (λ e, exists y z c x,
            0 <= y < T /\ 0 <= z < H /\ 0 <= x < S /\
            channel_states l !! Z.to_nat c = Some 1 /\
            event_content tile_start tile_step height_start height_step
              scan_start e y z c x) events.
Proof.
  apply Forall_forall. intros e (y & z & c & x & config & Hy & Hz & Hx & Ha & Hc & ->)%elem_of_events.
  exists y, z, c, x. do 4 (split; [done|]). by apply evt_content.
Qed.

(** C10: every event of the list has the scan-axis start position as its
    physical ['x'] target, whatever its logical index. *)
Theorem every_event_has_scan_start_as_x :
  Forall (λ e, stage_target e "x" = Some scan_start) events.
Proof.
  apply Forall_forall. intros e (y & z & c & x & config & _ & _ & _ & _ & _ & ->)%elem_of_events.
  unfold stage_target, OPM.evt. by simplify_map_eq.
Qed.


End EventFacts.



Lemma event_without_channel_index :
  events 1 1 1 (of_int 0) (of_int 10) (of_int 0) (of_int 5) (of_int 7) one_laser
    = [evt (of_int 7) "561nm" 0 0 0 (of_int 0) (of_int 0)] /\
  ¬ Forall names_four_axis_indices
      (events 1 1 1 (of_int 0) (of_int 10) (of_int 0) (of_int 5) (of_int 7)
         one_laser).
Proof.
  assert (He : events 1 1 1 (of_int 0) (of_int 10) (of_int 0) (of_int 5) (of_int 7) one_laser
    = [evt (of_int 7) "561nm" 0 0 0 (of_int 0) (of_int 0)]) by (vm_compute; reflexivity).
  split; [exact He|]. rewrite He.
  intros Hall. apply Forall_cons_1 in Hall as [Hfour _].
  by apply evt_names_three_axes in Hfour.
Qed.

(** ** Waiting for the controller *)

Section PollingFacts.
Variable SerialResponse : nat -> string.

Local Abbreviation poll := (poll SerialResponse).
Local Abbreviation poll_step := (poll_step SerialResponse).
Local Abbreviation after_polls := (after_polls SerialResponse).
Local Abbreviation wait_ready := (wait_ready SerialResponse).

Lemma after_polls_S k s : after_polls (S k) s = poll (after_polls k s).
Proof. reflexivity. Qed.

Lemma after_polls_shift k s : after_polls (S k) s = after_polls k (poll s).
Proof.
  induction k as [|k IH]; [reflexivity|].
  rewrite after_polls_S, IH. reflexivity.
Qed.

Lemma reads_after_polls k s : reads (after_polls k s) = (reads s + k)%nat.
Proof.
  induction k as [|k IH]; [simpl; lia|].
  rewrite after_polls_S. simpl. rewrite IH. lia.
Qed.

Lemma slept_after_polls k s :
  slept_ms (after_polls k s) = slept_ms s + 500 * Z.of_nat k.
Proof.
  induction k as [|k IH]; [simpl; lia|].
  rewrite after_polls_S. simpl. rewrite IH. lia.
Qed.

Lemma ready_after_polls k s :
  ready (after_polls (S k) s) = SerialResponse (reads s + k)%nat.
Proof. rewrite after_polls_S. simpl. by rewrite reads_after_polls. Qed.

(** The local variable [ready] after [k] passes from the entry of the
    hook. *)
Lemma ready_from_entry k :
  ready (after_polls k hook_entry) =
    match k with O => "B" | S j => SerialResponse j end.
Proof. destruct k as [|j]; [reflexivity|]. by rewrite ready_after_polls. Qed.

Lemma poll_step_iff s s' : poll_step s s' <-> ready s ≠ "N" /\ s' = poll s.
Proof.
  split.
  - intros Hstep. destruct Hstep. done.
  - intros [Hbusy ->]. by constructor.
Qed.

(** Every state the loop reaches is the state after some number of
    passes, each started with the controller not yet seen ready. *)
Lemma reachable_after_polls s :
  rtc poll_step hook_entry s ->
  exists k, s = after_polls k hook_entry /\
    forall j, (j < k)%nat -> ready (after_polls j hook_entry) ≠ "N".
Proof.
  intros Hrtc. apply rtc_nsteps in Hrtc as [k Hk]. exists k.
  remember hook_entry as s0 eqn:Hs0. clear Hs0.
  induction Hk as [s|k s s1 s2 Hstep Hk IH].
  - split; [done|]. intros j Hj. lia.
  - apply poll_step_iff in Hstep as [Hbusy ->].
    destruct IH as [-> IH]. split; [by rewrite after_polls_shift|].
    intros [|j] Hj; [done|]. rewrite after_polls_shift. apply IH. lia.
Qed.

Lemma polls_reachable k s :
  (forall j, (j < k)%nat -> ready (after_polls j s) ≠ "N") ->
  rtc poll_step s (after_polls k s).
Proof.
  induction k as [|k IH]; intros Hbusy; [apply rtc_refl|].
  eapply rtc_r; [apply IH; intros j Hj; apply Hbusy; lia|].
  rewrite after_polls_S. constructor. apply Hbusy. lia.
Qed.

Lemma wait_ready_exits k fuel s :
  (forall j, (j < k)%nat -> ready (after_polls j s) ≠ "N") ->
  ready (after_polls k s) = "N" ->
  (k <= fuel)%nat ->
  wait_ready fuel s = Some (after_polls k s).
Proof.
  revert fuel s. induction k as [|k IH]; intros fuel s Hbusy Hready Hfuel.
  - destruct fuel; cbn [OPM.wait_ready]; by rewrite decide_True.
  - destruct fuel as [|fuel]; [lia|]. cbn [OPM.wait_ready].
    rewrite decide_False by (apply (Hbusy 0%nat); lia).
    rewrite after_polls_shift. apply IH; [|by rewrite <- after_polls_shift|lia].
    intros j Hj. rewrite <- after_polls_shift. apply Hbusy. lia.
Qed.

Lemma wait_ready_out_of_fuel fuel s :
  (forall j, (j <= fuel)%nat -> ready (after_polls j s) ≠ "N") ->
  wait_ready fuel s = None.
Proof.
  revert s. induction fuel as [|fuel IH]; intros s Hbusy; cbn [OPM.wait_ready].
  - by rewrite decide_False by (apply (Hbusy 0%nat); lia).
  - rewrite decide_False by (apply (Hbusy 0%nat); lia).
    apply IH. intros j Hj. rewrite <- after_polls_shift. apply Hbusy. lia.
Qed.

(** C5: the wait polls the status on a fixed interval of 500 ms, has a
    step exactly while the last response read is not ['N'], exits after the
    first ['N'] response, and never exits when the controller never
    reports ['N']. *)
Theorem wait_for_controller_polls_until_ready :
  (forall s s', poll_step s s' ->
     s' = poll s /\ slept_ms s' = slept_ms s + 500 /\
     reads s' = S (reads s)) /\
  (forall s, (exists s', poll_step s s') <-> ¬ loop_exited s) /\
  (forall s, rtc poll_step hook_entry s -> loop_exited s ->
     exists n, SerialResponse n = "N" /\ s = after_polls (S n) hook_entry) /\
  (forall n, (forall k, (k < n)%nat -> SerialResponse k ≠ "N") ->
     SerialResponse n = "N" ->
     let s := after_polls (S n) hook_entry in
     rtc poll_step hook_entry s /\ loop_exited s /\
     reads s = S n /\ slept_ms s = 500 * (Z.of_nat n + 1) /\
     (forall (E : Type) (event : E) fuel, (n < fuel)%nat ->
        post_hardware_hook SerialResponse fuel event
        = Some (event, hook_exit s)) /\
     (forall (E : Type) (event : E) fuel, (fuel <= n)%nat ->
        post_hardware_hook SerialResponse fuel event = None)) /\
  ((forall k, SerialResponse k ≠ "N") ->
     (forall s, rtc poll_step hook_entry s ->
        ¬ loop_exited s /\ exists s', poll_step s s') /\
     (forall (E : Type) (event : E) fuel,
        post_hardware_hook SerialResponse fuel event = None)).
Proof.
  assert (Hentry : forall n, (forall k, (k < n)%nat -> SerialResponse k ≠ "N") ->
            forall j, (j <= n)%nat -> ready (after_polls j hook_entry) ≠ "N").
  { intros n Hbusy j Hj. rewrite ready_from_entry.
    destruct j as [|j]; [done|]. apply Hbusy. lia. }
  split_and!.
  - intros s s' [Hbusy ->]%poll_step_iff. simpl. done.
  - intros s. unfold loop_exited. split.
    + intros [s' [Hbusy _]%poll_step_iff]. done.
    + intros Hbusy. exists (poll s). by constructor.
  - intros s (k & -> & Hbusy)%reachable_after_polls Hexit.
    unfold loop_exited in Hexit. rewrite ready_from_entry in Hexit.
    destruct k as [|n]; [done|]. eauto.
  - intros n Hbusy Hn s.
    assert (Hs : ready s = "N") by (unfold s; by rewrite ready_from_entry).
    split_and!.
    + apply polls_reachable. intros j Hj. apply (Hentry n); [done|lia].
    + done.
    + unfold s. by rewrite reads_after_polls.
    + unfold s. rewrite slept_after_polls. simpl slept_ms. lia.
    + intros E event fuel Hfuel. unfold post_hardware_hook.
      rewrite (wait_ready_exits (S n)); [done| |done|lia].
      intros j Hj. apply (Hentry n); [done|lia].
    + intros E event fuel Hfuel. unfold post_hardware_hook.
      rewrite wait_ready_out_of_fuel; [done|].
      intros j Hj. apply (Hentry n); [done|lia].
  - intros Hnever. split.
    + intros s (k & -> & _)%reachable_after_polls.
      assert (Hk : ready (after_polls k hook_entry) ≠ "N").
      { apply (Hentry k); [intros; apply Hnever|lia]. }
      split; [done|]. eexists. by constructor.
    + intros E event fuel. unfold post_hardware_hook.
      rewrite wait_ready_out_of_fuel; [done|].
      intros j Hj. apply (Hentry j); [intros; apply Hnever|lia].
Qed.

End PollingFacts.

(** A controller that is busy for three reads, and one that is always
    busy. *)
Lemma wait_for_controller_polls_until_ready_witness :
  post_hardware_hook ready_at_fourth_read 4 tt
    = Some (tt, hook_exit (after_polls ready_at_fourth_read 4 hook_entry)) /\
  slept_ms (after_polls ready_at_fourth_read 4 hook_entry) = 2000 /\
  post_hardware_hook always_busy 1000 tt = None.
Proof.
  destruct (wait_for_controller_polls_until_ready ready_at_fourth_read)
    as (_ & _ & _ & Hready & _).
  destruct (Hready 3%nat) as (_ & _ & _ & Hslept & Hexit & _).
  { intros k Hk. unfold ready_at_fourth_read.
    destruct (Nat.ltb_spec k 3); [done|lia]. }
  { reflexivity. }
  destruct (wait_for_controller_polls_until_ready always_busy)
    as (_ & _ & _ & _ & Hnever).
  destruct Hnever as [_ Hnone]; [done|].
  split; [apply Hexit; lia|]. split; [exact Hslept|]. apply Hnone.
Defined.

(** ** The PSF viewer *)

Import PSFViewer.

Section ViewerFacts.
Context {pixel : Type}.
Implicit Types (g : @globals pixel) (e : @element pixel) (s : @system pixel)
  (v : @viewer pixel).

(** *** [place_data] *)

Lemma py_index_in_range len i :
  0 <= i < Z.of_nat len -> py_index len i = Some (Z.to_nat i).
Proof.
  intros Hi. unfold py_index.
  destruct (Z.leb_spec 0 i), (Z.ltb_spec i (Z.of_nat len)); simpl; done || lia.
Qed.

(** C8: with a positive number of slices and of channels and both active
    counters in range, [place_data] returns, queues the frame under the old
    counters, advances the active slice by one modulo the number of slices,
    advances the active channel by one modulo the number of channels
    exactly when the slice counter wraps to zero, and leaves both counters
    in range. *)
Theorem place_data_advances_counters (image : list (list pixel)) g
    (z c slices count : Z) :
  z_range g !! 3%nat = Some z -> z_range g !! 2%nat = Some slices ->
  channels g !! 1%nat = Some c -> channels g !! 0%nat = Some count ->
  0 < slices -> 0 < count -> 0 <= z < slices -> 0 <= c < count ->
  let z' := (z + 1) mod slices in
  let c' := if z' =? 0 then (c + 1) mod count else c in
  exists g', place_data image g = Returned g' /\
    z_range g' !! 3%nat = Some z' /\ z_range g' !! 2%nat = Some slices /\
    channels g' !! 1%nat = Some c' /\ channels g' !! 0%nat = Some count /\
    0 <= z' < slices /\ 0 <= c' < count /\
    (z' = 0 <-> z = slices - 1) /\
    (z' ≠ 0 -> z' = z + 1) /\
    img_queue g' =
      img_queue g ++ [{| color := c; z_pos := z; raveled := ravel image |}].
Proof.
  intros Hz Hslices Hc Hcount Hs Hn Hzr Hcr z' c'.
  assert (Hz' : 0 <= z' < slices) by (apply Z.mod_pos_bound; lia).
  assert (Hwrap : z' = 0 <-> z = slices - 1).
  { unfold z'. destruct (decide (z = slices - 1)) as [->|Hne].
    - replace (slices - 1 + 1) with slices by lia. rewrite Z.mod_same by lia. done.
    - rewrite Z.mod_small by lia. split; lia. }
  assert (Hnowrap : z' ≠ 0 -> z' = z + 1).
  { intros Hne. unfold z'. apply Z.mod_small. lia. }
  assert (Hc' : 0 <= c' < count).
  { unfold c'. destruct (z' =? 0); [apply Z.mod_pos_bound|]; lia. }
  assert (Hlen3 : (3 < length (z_range g))%nat) by by eapply lookup_lt_Some.
  assert (Hlen1 : (1 < length (channels g))%nat) by by eapply lookup_lt_Some.
  assert (Hput : forall e, channels (put e g) = channels g /\
                           z_range (put e g) = z_range g) by done.
  unfold place_data. rewrite Hc, Hz.
  destruct (Hput {| color := c; z_pos := z; raveled := ravel image |})
    as [Hch Hzr']. rewrite Hzr', Hslices.
  destruct (Z.eqb_spec slices 0) as [|_]; [lia|].
  fold z'. cbv zeta. cbn [channels set_z_range]. rewrite Hch, Hcount.
  unfold c'. destruct (z' =? 0) eqn:Hz0.
  - destruct (Z.eqb_spec count 0) as [|_]; [lia|].
    eexists. split; [reflexivity|]. cbn.
    rewrite !list_lookup_insert_eq, !list_lookup_insert_ne by (done || lia).
    unfold c' in Hc'. done.
  - eexists. split; [reflexivity|]. cbn.
    rewrite list_lookup_insert_eq, list_lookup_insert_ne by (done || lia).
    unfold c' in Hc'. done.
Qed.

(** *** [start_acq] *)

(** C9: pressing Start while [acq_running] is set changes no global
    variable: no worker is started, the flag keeps its value and the active
    slice is not reset; hence pressing Start twice leaves the globals as
    pressing it once does. *)
Theorem start_acq_while_running_changes_nothing g :
  (acq_running g = true ->
     start_acq g
     = (["starting threads..."; "acquisition already running!"], Returned g)) /\
  state_of (snd (start_acq (state_of (snd (start_acq g)))))
  = state_of (snd (start_acq g)).
Proof.
  split.
  - intros Hrun. unfold start_acq. by rewrite Hrun.
  - unfold start_acq. destruct (acq_running g) eqn:Hrun; simpl.
    + by rewrite Hrun.
    + case_decide; simpl; [done|]. rewrite Hrun. simpl. by rewrite decide_False.
Qed.

(** *** [display_napari] *)

Lemma length_rows_of {A} rows cols (a : list A) :
  length (rows_of rows cols a) = rows.
Proof.
  revert a. induction rows as [|rows IH]; intros a; simpl; [done|].
  by rewrite IH.
Qed.

Lemma concat_rows_of {A} rows cols (a : list A) :
  length a = (rows * cols)%nat -> concat (rows_of rows cols a) = a.
Proof.
  revert a. induction rows as [|rows IH]; intros a Ha; simpl.
  - by destruct a.
  - rewrite IH by (rewrite length_drop; lia). apply take_drop.
Qed.

Lemma rows_of_row_lengths {A} rows cols (a : list A) :
  length a = (rows * cols)%nat ->
  Forall (λ row, length row = cols) (rows_of rows cols a).
Proof.
  revert a. induction rows as [|rows IH]; intros a Ha; simpl; constructor.
  - rewrite length_take. lia.
  - apply IH. rewrite length_drop. lia.
Qed.

(** The value written to a slice of the shape of the image: the image
    itself, unless the image has a single column and not a single row, in
    which case [np.squeeze] leaves a vector that does not fit the slice. *)
Lemma broadcast_squeezed_own_shape {A} rows cols (image : list (list A)) :
  length image = rows -> Forall (λ row, length row = cols) image ->
  broadcast_squeezed rows cols rows cols image
  = if (cols =? 1)%nat && negb (rows =? 1)%nat then None else Some image.
Proof.
  intros Hrows Hcols. unfold broadcast_squeezed.
  destruct (Nat.eqb_spec rows 1) as [Hr|Hr]; simpl.
  - rewrite andb_false_r.
    destruct image as [|row [|row' image]]; simpl in Hrows; try lia.
    apply Forall_cons in Hcols as [Hrow _]. simpl. rewrite app_nil_r.
    destruct row as [|x [|x' row]]; simpl in *.
    + rewrite <- Hrow, Hr. simpl. done.
    + rewrite <- Hrow, Hr. done.
    + rewrite <- Hrow, Nat.eqb_refl, Hr. done.
  - destruct (Nat.eqb_spec cols 1) as [Hc|Hc]; simpl.
    + assert (Hlen : length (concat image) = rows).
      { clear Hr. revert rows Hrows.
        induction Hcols as [|row image Hrow _ IH]; intros rows <-; [done|].
        simpl. rewrite length_app, (IH _ eq_refl). lia. }
      destruct (concat image) as [|x [|x' xs]]; simpl in *; try lia.
      * rewrite Hc. by destruct rows.
      * rewrite Hc. destruct (Nat.eqb_spec (S (S (length xs))) 1); [lia|done].
    + by rewrite !Nat.eqb_refl.
Qed.

Section Display.
Variable to_float64 : pixel -> float.
Variables clip_0 clip_1 layers : nat.


(** The image of an element with [clip_0 * clip_1] samples, converted to
    the sample type of the buffer. *)
Lemma converted_image (a : list pixel) :
  length a = (clip_0 * clip_1)%nat ->
  let image := map (map to_float64) (rows_of clip_0 clip_1 a) in
  concat image = map to_float64 a /\ length image = clip_0 /\
  Forall (λ row, length row = clip_1) image.
Proof.
  intros Hlen image. split_and!.
  - unfold image.
    rewrite <- (concat_rows_of clip_0 clip_1 a) at 2 by done.
    generalize (rows_of clip_0 clip_1 a). intros rows.
    induction rows as [|row rows IH]; [done|].
    simpl. by rewrite map_app, IH.
  - unfold image. by rewrite length_map, length_rows_of.
  - apply Forall_fmap. eapply Forall_impl; [by apply rows_of_row_lengths|].
    intros row Hrow. simpl. by rewrite length_map.
Qed.


End Display.


(** *** The [yield_img] worker *)


(** An action of the worker either leaves the queue alone or takes its
    oldest element and yields it. *)
Lemma yield_img_step_effect s s' :
  yield_img_step s = Some s' ->
  (img_queue (vars s') = img_queue (vars s) /\ yielded s' = yielded s) \/
  ((at_ s = inner_get \/ at_ s = drain_get) /\
   exists e, img_queue (vars s) = e :: img_queue (vars s') /\
             yielded s' = yielded s ++ [e]).
Proof.
  unfold yield_img_step, get_and_yield, goto.
  destruct (at_ s) eqn:Hat; try discriminate;
    try (intros [= <-]; left; done);
    destruct (img_queue (vars s)) as [|e q] eqn:Hq; intros [= <-]; simpl;
    [left; done | right; eauto 10 | left; done | right; eauto 10].
Qed.





(** *** The first run *)







End ViewerFacts.



Lemma place_data_advances_counters_witness :
  exists g', place_data [[1; 2]; [3; 4]] example_globals = Returned g' /\
    z_range g' !! 3%nat = Some 0 /\ channels g' !! 1%nat = Some 0.
Proof.
  destruct (place_data_advances_counters [[1; 2]; [3; 4]] example_globals
              2 1 3 2) as (g' & Hret & Hz & _ & Hc & _);
    try reflexivity; try lia.
  exists g'. split; [exact Hret|]. split; [exact Hz|exact Hc].
Defined.

Lemma start_acq_while_running_changes_nothing_witness :
  start_acq example_globals
  = (["starting threads..."; "acquisition already running!"],
     Returned example_globals).
Proof.
  apply (start_acq_while_running_changes_nothing example_globals). reflexivity.
Defined.



(** * Further properties *)

(** ** The acquisition-event list: membership, emptiness, distinctness and
    the place of each scan *)

Section MoreEventFacts.
Variables T H S : Z.
Variables tile_start tile_step height_start height_step scan_start : float.
Variable l : lasers.

Local Abbreviation events :=
  (events T H S tile_start tile_step height_start height_step scan_start l).
Local Abbreviation created :=
  (created tile_start tile_step height_start height_step scan_start l).
Local Abbreviation evt := (evt scan_start).
Local Abbreviation tile_position_um := (tile_position_um tile_start tile_step).
Local Abbreviation height_position_um :=
  (height_position_um height_start height_step).
Local Abbreviation scan_events :=
  (scan_events S tile_start tile_step height_start height_step scan_start).
Local Abbreviation scan_offset := (scan_offset H S l).

Lemma channel_config_range c config :
  channel_config c = Some config -> 0 <= c < 5.
Proof.
  unfold channel_config.
  repeat match goal with
         | |- context [c =? ?k] => destruct (Z.eqb_spec c k) as [->|?]; [lia|]
         end.
  discriminate.
Qed.

(** X1: an event is in the list exactly when it is the event of a tile, a
    height position and a scan step in range and of a channel whose state
    is 1. *)
Theorem event_in_list_iff e :
  e ∈ events <->
  exists y z c x config,
    0 <= y < T /\ 0 <= z < H /\ 0 <= x < S /\
    channel_states l !! Z.to_nat c = Some 1 /\
    channel_config c = Some config /\
    e = evt config x y z (tile_position_um y) (height_position_um z).
Proof.
  split; [apply elem_of_events|].
  intros (y & z & c & x & config & Hy & Hz & Hx & Hactive & Hconfig & ->).
  rewrite events_refine. unfold events_in_loop_order.
  apply list_elem_of_bind. exists y. split; [|apply elem_of_seqZ; lia].
  apply list_elem_of_bind. exists z. split; [|apply elem_of_seqZ; lia].
  apply list_elem_of_bind. exists c. split.
  2:{ apply elem_of_seqZ. apply channel_config_range in Hconfig.
      simpl. lia. }
  apply list_elem_of_bind. exists x. split; [|apply elem_of_seqZ; lia].
  rewrite created_cases, decide_True, Hconfig by done.
  apply list_elem_of_singleton. reflexivity.
Qed.

(** X2: the list is empty exactly when a position count is not positive
    or no channel has state 1. *)
Theorem no_event_iff :
  events = [] <-> T <= 0 \/ H <= 0 \/ S <= 0 \/ active_channels l = 0%nat.
Proof.
  rewrite <- length_zero_iff_nil, length_events. split.
  - intros Hzero.
    destruct (Z.to_nat T) eqn:HT; [lia|].
    destruct (Z.to_nat H) eqn:HH; [lia|].
    destruct (Z.to_nat S) eqn:HS; [lia|].
    destruct (active_channels l); [tauto|]. simpl in Hzero. lia.
  - intros [HT|[HH|[HS|Hactive]]].
    + replace (Z.to_nat T) with 0%nat by lia. reflexivity.
    + replace (Z.to_nat H) with 0%nat by lia. lia.
    + replace (Z.to_nat S) with 0%nat by lia. lia.
    + rewrite Hactive. lia.
Qed.

Lemma loop_before_irrefl i : ¬ loop_before i i.
Proof. destruct i as [[[y z] c] x]. simpl. lia. Qed.

(** X3: no two events of the list were created under the same loop
    indices: each combination of ['axes'] and laser configuration occurs
    at most once. *)
Theorem events_have_distinct_indices :
  NoDup (loop_indices <$> events) /\ NoDup events.
Proof.
  assert (Hnodup : NoDup (loop_indices <$> events)).
  { generalize (events_sorted T H S tile_start tile_step height_start
                  height_step scan_start l).
    generalize events. intros evs Hsorted.
    induction Hsorted as [|e evs Hsorted IH Hall]; [constructor|].
    rewrite fmap_cons. constructor; [|done].
    intros (e' & Heq & Hin)%list_elem_of_fmap.
    rewrite Forall_forall in Hall. specialize (Hall e' Hin).
    unfold event_before in Hall. rewrite <- Heq in Hall.
    destruct (loop_indices e); [|done]. by apply loop_before_irrefl in Hall. }
  split; [done|]. by apply NoDup_fmap_1 in Hnodup.
Qed.


Lemma bind_seqZ_split {B : Type} (f : Z -> list B) n i :
  0 <= i < n ->
  seqZ 0 n ≫= f
  = (seqZ 0 i ≫= f) ++ f i ++ (seqZ (i + 1) (n - i - 1) ≫= f).
Proof.
  intros Hi. replace n with (i + (n - i)) at 1 by lia.
  rewrite seqZ_app, bind_app by lia. f_equal.
  rewrite (seqZ_cons (0 + i)) by lia. rewrite bind_cons.
  replace (0 + i) with i by lia.
  replace (Z.succ i) with (i + 1) by lia.
  replace (Z.pred (n - i)) with (n - i - 1) by lia. reflexivity.
Qed.

Lemma bind_singletons {A B : Type} (f : A -> B) (xs : list A) :
  xs ≫= (λ x, [f x]) = f <$> xs.
Proof.
  induction xs as [|x xs IH]; [done|].
  rewrite bind_cons, fmap_cons, IH. reflexivity.
Qed.

Local Abbreviation scan_pass y z c := (seqZ 0 S ≫= created y z c).
Local Abbreviation channel_pass y z :=
  (seqZ 0 (Z.of_nat (length (channel_states l))) ≫= λ c, scan_pass y z c).
Local Abbreviation height_pass y := (seqZ 0 H ≫= λ z, channel_pass y z).

Lemma scan_pass_active y z c config :
  channel_states l !! Z.to_nat c = Some 1 ->
  channel_config c = Some config ->
  scan_pass y z c = scan_events config y z.
Proof.
  intros Hactive Hconfig. unfold OPM.scan_events.
  rewrite <- bind_singletons. apply list_bind_ext; [|done].
  intros x. by rewrite created_cases, decide_True, Hconfig.
Qed.

Lemma length_filter_cons {A : Type} (P : A -> Prop) `{!forall a, Decision (P a)}
    (a b : A) (bs : list A) :
  length (filter P (a :: b :: bs))
  = (length (filter P [a]) + length (filter P (b :: bs)))%nat.
Proof.
  change (a :: b :: bs) with ([a] ++ b :: bs).
  by rewrite filter_app, length_app.
Qed.

Lemma length_channel_prefix y z c :
  0 <= c <= 5 ->
  length (seqZ 0 c ≫= λ c', scan_pass y z c')
  = (active_before l c * Z.to_nat S)%nat.
Proof.
  intros Hc.
  assert (c = 0 \/ c = 1 \/ c = 2 \/ c = 3 \/ c = 4 \/ c = 5)
    as [->|[->|[->|[->|[->| ->]]]]] by lia;
    unfold active_before, channel_states;
    [ change (seqZ 0 0) with (@nil Z)
    | change (seqZ 0 1) with [0]
    | change (seqZ 0 2) with [0; 1]
    | change (seqZ 0 3) with [0; 1; 2]
    | change (seqZ 0 4) with [0; 1; 2; 3]
    | change (seqZ 0 5) with [0; 1; 2; 3; 4] ];
    rewrite ?bind_cons, ?length_app; cbv beta;
    rewrite ?length_scan_pass;
    change (channel_states l !! Z.to_nat 0) with (Some (state_405 l));
    change (channel_states l !! Z.to_nat 1) with (Some (state_488 l));
    change (channel_states l !! Z.to_nat 2) with (Some (state_561 l));
    change (channel_states l !! Z.to_nat 3) with (Some (state_635 l));
    change (channel_states l !! Z.to_nat 4) with (Some (state_730 l));
    rewrite ?length_active_term by (vm_compute; eauto);
    change (Z.to_nat 0) with 0%nat; change (Z.to_nat 1) with 1%nat;
    change (Z.to_nat 2) with 2%nat; change (Z.to_nat 3) with 3%nat;
    change (Z.to_nat 4) with 4%nat; change (Z.to_nat 5) with 5%nat;
    cbn [take]; rewrite ?length_filter_cons;
    change (length ([] ≫= _)) with 0%nat; try lia.
  reflexivity.
Qed.


Lemma length_height_pass y :
  length (height_pass y)
  = (Z.to_nat H * (active_channels l * Z.to_nat S))%nat.
Proof.
  rewrite (length_bind_const _ _ (active_channels l * Z.to_nat S)%nat).
  - by rewrite length_seqZ.
  - intros z _. apply length_channel_pass.
Qed.

(** X4: the events of one scan, that is all scan steps of one tile, one
    height position and one active channel, stand together in the list in
    the order of the scan steps, and the scan at [(y, z, c)] starts at
    position [((y * height + z) * active + active_before c) * scan]. *)
Theorem scan_events_are_contiguous y z c config :
  0 <= y < T -> 0 <= z < H ->
  channel_states l !! Z.to_nat c = Some 1 ->
  channel_config c = Some config ->
  (exists before after,
     events = before ++ scan_events config y z ++ after /\
     length before = scan_offset y z c) /\
  (forall x, 0 <= x < S ->
     events !! (scan_offset y z c + Z.to_nat x)%nat
     = Some (evt config x y z (tile_position_um y) (height_position_um z))).
Proof.
  intros Hy Hz Hactive Hconfig.
  assert (Hc : 0 <= c < 5) by by eapply channel_config_range.
  assert (Hsplit : exists before after,
            events = before ++ scan_events config y z ++ after /\
            length before = scan_offset y z c).
  { pose proof (bind_seqZ_split (λ y', height_pass y') T y Hy) as HY.
    pose proof (bind_seqZ_split (λ z', channel_pass y z') H z Hz) as HZ.
    assert (0 <= c < Z.of_nat (length (channel_states l))) as Hc'
      by (simpl; lia).
    pose proof (bind_seqZ_split (λ c', scan_pass y z c') _ c Hc') as HC.
    cbv beta in HY, HZ, HC.
    rewrite (scan_pass_active y z c config) in HC by done.
    rewrite events_refine.
    change (events_in_loop_order T H S tile_start tile_step height_start
              height_step scan_start l)
      with (seqZ 0 T ≫= λ y', height_pass y').
    rewrite HY, HZ, HC.
    rewrite <- !app_assoc.
    match goal with
    | |- exists before after, ?a ++ ?b ++ ?c ++ _ ++ ?rest = _ /\ _ =>
        exists (a ++ b ++ c), rest
    end.
    split.
    - by rewrite <- !app_assoc.
    - rewrite !length_app.
      rewrite (length_bind_const _ (seqZ 0 y)
                 (Z.to_nat H * (active_channels l * Z.to_nat S))%nat)
        by (intros; apply length_height_pass).
      rewrite (length_bind_const _ (seqZ 0 z)
                 (active_channels l * Z.to_nat S)%nat)
        by (intros; apply length_channel_pass).
      rewrite length_channel_prefix by lia.
      rewrite !length_seqZ. unfold OPM.scan_offset. lia. }
  split; [done|].
  intros x Hx. destruct Hsplit as (before & after & -> & <-).
  rewrite lookup_app_r by lia.
  replace (length before + Z.to_nat x - length before)%nat with (Z.to_nat x)
    by lia.
  rewrite lookup_app_l by (unfold OPM.scan_events; rewrite length_fmap, length_seqZ; lia).
  unfold OPM.scan_events. rewrite list_lookup_fmap, lookup_seqZ_lt by lia.
  simpl. do 2 f_equal. lia.
Qed.

End MoreEventFacts.

Lemma scan_events_are_contiguous_witness :
  events 2 1 3 (of_int 0) (of_int 10) (of_int 0) (of_int 5) (of_int 7)
    two_lasers !! 10%nat
  = Some (evt (of_int 7) "561nm" 1 1 0
            (tile_position_um (of_int 0) (of_int 10) 1)
            (height_position_um (of_int 0) (of_int 5) 0)).
Proof.
  destruct (scan_events_are_contiguous 2 1 3 (of_int 0) (of_int 10) (of_int 0)
              (of_int 5) (of_int 7) two_lasers 1 0 2 "561nm")
    as [_ Hlookup]; [lia | lia | reflexivity | reflexivity |].
  apply (Hlookup 1). lia.
Defined.

(** ** The geometry does not depend on the direction of a range *)

Lemma abs_round_aux_sign s s' m e l :
  SFabs (binary_round_aux prec emax s m e l)
  = SFabs (binary_round_aux prec emax s' m e l).
Proof.
  unfold binary_round_aux.
  destruct (shr_fexp prec emax m e l) as [mrs' e'].
  destruct (shr_fexp prec emax _ e' loc_Exact) as [mrs'' e''].
  destruct (shr_m mrs''); [reflexivity | | reflexivity].
  destruct (e'' <=? emax - prec); reflexivity.
Qed.

Lemma abs_normalize_opp m e :
  SFabs (binary_normalize prec emax (- m) e false)
  = SFabs (binary_normalize prec emax m e false).
Proof.
  destruct m as [|q|q]; [reflexivity| |]; simpl; unfold binary_round;
    destruct (shl_align q e _) as [mz ez]; apply abs_round_aux_sign.
Qed.

(** The distance between two stage positions is the same in both
    directions, whatever the two floats are. *)
Lemma np_abs_sub_swap a b : np_abs (sub a b) = np_abs (sub b a).
Proof.
  unfold np_abs, sub.
  destruct a as [sa|sa| |sa ma ea], b as [sb|sb| |sb mb eb];
    try reflexivity;
    try (destruct sa, sb; reflexivity).
  cbn [SFsub]. rewrite (Z.min_comm eb ea).
  rewrite <- abs_normalize_opp. f_equal. f_equal. lia.
Qed.

(** X5: exchanging the start and the end of the scan, tile and height
    ranges changes none of the three position counts. *)
Theorem position_counts_ignore_direction (np_sin : float -> float)
    (p : parameters) :
  scan_axis_positions (swap_ranges p) = scan_axis_positions p /\
  tile_axis_positions (swap_ranges p) = tile_axis_positions p /\
  height_axis_positions np_sin (swap_ranges p) = height_axis_positions np_sin p.
Proof.
  unfold scan_axis_positions, tile_axis_positions, height_axis_positions,
    tile_axis_positions_rounded, height_axis_positions_rounded,
    scan_axis_range_mm, tile_axis_range_mm, height_axis_range_mm,
    scan_axis_range_um, tile_axis_range_um, height_axis_range_um.
  cbn [swap_ranges scan_axis_start_um scan_axis_end_um tile_axis_start_um
       tile_axis_end_um height_axis_start_um height_axis_end_um].
  rewrite (np_abs_sub_swap (scan_axis_start_um p)),
    (np_abs_sub_swap (tile_axis_start_um p)),
    (np_abs_sub_swap (height_axis_start_um p)).
  done.
Qed.

(** ** What [post_hardware_hook] sends to the controller *)

Section HookCalls.
Variable SerialResponse : nat -> string.

Local Abbreviation after_polls := (after_polls SerialResponse).
Local Abbreviation wait_ready := (wait_ready SerialResponse).

Lemma calls_after_polls k s :
  calls (after_polls k s) = calls s ++ mjoin (replicate k poll_calls).
Proof.
  revert s. induction k as [|k IH]; intros s; [by rewrite app_nil_r|].
  rewrite after_polls_shift, IH. cbn [calls poll replicate mjoin list_join].
  by rewrite <- app_assoc.
Qed.

(** A bounded wait that returns ends after some number of passes, the
    controller being seen ready after the last one and not before. *)
Lemma wait_ready_returns fuel s s' :
  wait_ready fuel s = Some s' ->
  exists k, (k <= fuel)%nat /\ s' = after_polls k s /\ ready s' = "N" /\
    forall j, (j < k)%nat -> ready (after_polls j s) ≠ "N".
Proof.
  revert s. induction fuel as [|fuel IH]; intros s; cbn [OPM.wait_ready].
  - case_decide; [|done]. intros [= <-]. exists 0%nat.
    split_and!; [done..|]. intros j Hj. lia.
  - case_decide as Hready.
    + intros [= <-]. exists 0%nat. split_and!; [lia|done..|]. intros j Hj. lia.
    + intros (k & Hk & -> & Hs' & Hbusy)%IH. exists (S k).
      rewrite after_polls_shift. split_and!; [lia|done..|].
      intros [|j] Hj; [done|]. rewrite after_polls_shift. apply Hbusy. lia.
Qed.

(** X6: when [post_hardware_hook] returns, it returns the event it was
    given, the controller reported ['N'] at some read [n] and not before,
    and the calls made are: repeated commands on, then [n + 1] times a
    STATUS command, a read of the response and a pause of 500 ms, then
    repeated commands off. *)
Theorem post_hardware_hook_calls {E : Type} fuel (event event' : E) s :
  post_hardware_hook SerialResponse fuel event = Some (event', s) ->
  event' = event /\
  exists n, (n < fuel)%nat /\ SerialResponse n = "N" /\
    (forall k, (k < n)%nat -> SerialResponse k ≠ "N") /\
    reads s = S n /\
    calls s =
      [set_property "TigerCommHub" "OnlySendSerialCommandOnChange" "No"]
      ++ mjoin (replicate (S n) poll_calls)
      ++ [set_property "TigerCommHub" "OnlySendSerialCommandOnChange" "Yes"].
Proof.
  unfold post_hardware_hook.
  destruct (wait_ready fuel hook_entry) as [s1|] eqn:Hwait; [|done].
  simpl. intros [= <- <-]. split; [done|].
  apply wait_ready_returns in Hwait as (k & Hk & -> & Hready & Hbusy).
  rewrite ready_from_entry in Hready.
  destruct k as [|n]; [done|]. exists n. split_and!.
  - lia.
  - done.
  - intros j Hj. specialize (Hbusy (S j) ltac:(lia)).
    by rewrite ready_from_entry in Hbusy.
  - cbn [reads hook_exit]. by rewrite reads_after_polls.
  - cbn [calls hook_exit]. rewrite calls_after_polls.
    by rewrite <- app_assoc.
Qed.

End HookCalls.

Lemma post_hardware_hook_calls_witness :
  exists n, (n < 4)%nat /\ ready_at_fourth_read n = "N" /\
    calls (hook_exit (after_polls ready_at_fourth_read 4 hook_entry)) =
      [set_property "TigerCommHub" "OnlySendSerialCommandOnChange" "No"]
      ++ mjoin (replicate (S n) poll_calls)
      ++ [set_property "TigerCommHub" "OnlySendSerialCommandOnChange" "Yes"].
Proof.
  destruct (post_hardware_hook_calls ready_at_fourth_read 4 tt tt
              (hook_exit (after_polls ready_at_fourth_read 4 hook_entry))
              eq_refl) as (_ & n & Hn & Hready & _ & _ & Hcalls).
  exists n. split; [exact Hn|]. split; [exact Hready|exact Hcalls].
Defined.

(** ** From the geometry to the events *)

(** X7: for a geometry whose pixel size and ROI are not negative and
    whose tile and height quotients fit a 64-bit integer, the notebook has
    no event to acquire exactly when the scan range rounds to no scan
    position or no laser is active: the tile and height axes never empty
    the list. *)
Theorem notebook_events_empty_iff (np_sin : float -> float) (p : parameters)
    (l : lasers) :
  sign_bit (pixel_size_um p) = false ->
  0 <= ROI_3 (ROI p) -> 0 <= ROI_2 (ROI p) ->
  sign_bit (np_sin (mul (of_int 30) (div np_pi (of_int 180)))) = false ->
  castable (np_rint (div (tile_axis_range_mm p) (tile_axis_step_mm p))) = true ->
  castable (np_rint (div (height_axis_range_mm p)
                         (height_axis_step_mm np_sin p))) = true ->
  notebook_events np_sin p l = [] <->
  scan_axis_positions p <= 0 \/ active_channels l = 0%nat.
Proof.
  intros Hpx Hroi3 Hroi2 Hsin Htile Hheight.
  assert (Ht : 1 <= tile_axis_positions p).
  { apply clamp_at_least_one, rounded_quotient_nonneg;
      [apply range_mm_sign | by apply tile_axis_step_mm_sign | done]. }
  assert (Hh : 1 <= height_axis_positions np_sin p).
  { apply clamp_at_least_one, rounded_quotient_nonneg;
      [apply range_mm_sign | by apply height_axis_step_mm_sign | done]. }
  unfold notebook_events. rewrite <- length_zero_iff_nil, length_events.
  destruct (Z.to_nat (tile_axis_positions p)) as [|t] eqn:HT; [lia|].
  destruct (Z.to_nat (height_axis_positions np_sin p)) as [|h] eqn:HH; [lia|].
  split.
  - intros Hzero.
    destruct (Z.to_nat (scan_axis_positions p)) eqn:HS; [lia|].
    destruct (active_channels l); [tauto|]. simpl in Hzero. lia.
  - intros [HS|Hactive].
    + replace (Z.to_nat (scan_axis_positions p)) with 0%nat by lia. lia.
    + rewrite Hactive. lia.
Qed.

Lemma notebook_events_empty_iff_witness :
  notebook_events np_sin_at_30 zero_length_ranges one_laser = [].
Proof.
  apply (notebook_events_empty_iff np_sin_at_30 zero_length_ranges one_laser);
    try (vm_compute; congruence).
  left. vm_compute. congruence.
Defined.

(** ** The PSF viewer: frames in a row, errors, clipping and the way from
    the producer to the buffer *)

Section MoreViewerFacts.
Context {pixel : Type}.
Implicit Types (g : @globals pixel) (e : @element pixel).

(** One call of [place_data] from counters in range, with every field of
    the result. *)
Lemma place_data_returns (image : list (list pixel)) g (z c slices count : Z) :
  z_range g !! 3%nat = Some z -> z_range g !! 2%nat = Some slices ->
  channels g !! 1%nat = Some c -> channels g !! 0%nat = Some count ->
  0 < slices -> 0 < count ->
  let z' := (z + 1) mod slices in
  let c' := if z' =? 0 then (c + 1) mod count else c in
  exists g', place_data image g = Returned g' /\
    z_range g' !! 3%nat = Some z' /\ z_range g' !! 2%nat = Some slices /\
    channels g' !! 1%nat = Some c' /\ channels g' !! 0%nat = Some count /\
    img_queue g' =
      img_queue g ++ [{| color := c; z_pos := z; raveled := ravel image |}] /\
    unfinished_tasks g' = S (unfinished_tasks g) /\
    data g' = data g /\ acq_running g' = acq_running g /\
    workers g' = workers g.
Proof.
  intros Hz Hslices Hc Hcount Hs Hn z' c'.
  assert (Hlen3 : (3 < length (z_range g))%nat) by by eapply lookup_lt_Some.
  assert (Hlen1 : (1 < length (channels g))%nat) by by eapply lookup_lt_Some.
  assert (Hput : forall e, channels (put e g) = channels g /\
                           z_range (put e g) = z_range g) by done.
  unfold place_data. rewrite Hc, Hz.
  destruct (Hput {| color := c; z_pos := z; raveled := ravel image |})
    as [Hch Hzr']. rewrite Hzr', Hslices.
  destruct (Z.eqb_spec slices 0) as [|_]; [lia|].
  fold z'. cbv zeta. cbn [channels set_z_range]. rewrite Hch, Hcount.
  unfold c'. destruct (z' =? 0) eqn:Hz0.
  - destruct (Z.eqb_spec count 0) as [|_]; [lia|].
    eexists. split; [reflexivity|]. cbn.
    rewrite !list_lookup_insert_eq, !list_lookup_insert_ne by (done || lia).
    done.
  - eexists. split; [reflexivity|]. cbn.
    rewrite list_lookup_insert_eq, list_lookup_insert_ne by (done || lia).
    done.
Qed.

(** The tags of the frames after the next one are those counted from the
    advanced counters. *)
Lemma frame_tags_shift (z c slices count : Z) (i : nat) :
  0 < slices -> 0 < count -> 0 <= z < slices ->
  let z' := (z + 1) mod slices in
  let c' := if z' =? 0 then (c + 1) mod count else c in
  frame_slice z' slices i = frame_slice z slices (S i) /\
  frame_color z' c' slices count i = frame_color z c slices count (S i).
Proof.
  intros Hs Hn Hz z' c'. unfold frame_slice, frame_color.
  replace (z + Z.of_nat (S i)) with (z + 1 + Z.of_nat i) by lia.
  destruct (decide (z + 1 = slices)) as [Hwrap|Hnowrap].
  - assert (Hz' : z' = 0) by (unfold z'; rewrite Hwrap; apply Z.mod_same; lia).
    unfold c'. rewrite Hz'. simpl (0 =? 0). cbv iota.
    rewrite Hwrap. split.
    + replace (slices + Z.of_nat i) with (Z.of_nat i + 1 * slices) by lia.
      by rewrite Z.mod_add, Z.add_0_l by lia.
    + replace (slices + Z.of_nat i) with (Z.of_nat i + 1 * slices) by lia.
      rewrite Z.div_add by lia. rewrite Z.add_mod_idemp_l by lia.
      rewrite Z.add_0_l. f_equal. lia.
  - assert (Hz' : z' = z + 1) by (unfold z'; apply Z.mod_small; lia).
    unfold c'. rewrite Hz'. destruct (Z.eqb_spec (z + 1) 0); [lia|]. done.
Qed.

Lemma frame_slice_0 (z slices : Z) :
  0 <= z < slices -> frame_slice z slices 0 = z.
Proof.
  intros. unfold frame_slice. change (Z.of_nat 0) with 0.
  rewrite Z.add_0_r. apply Z.mod_small. lia.
Qed.

Lemma frame_color_0 (z c slices count : Z) :
  0 <= z < slices -> 0 <= c < count -> frame_color z c slices count 0 = c.
Proof.
  intros. unfold frame_color. change (Z.of_nat 0) with 0.
  rewrite Z.add_0_r, Z.div_small, Z.add_0_r by lia. apply Z.mod_small. lia.
Qed.

Lemma frame_slice_range z slices i :
  0 < slices -> 0 <= frame_slice z slices i < slices.
Proof. intros. unfold frame_slice. apply Z.mod_pos_bound. lia. Qed.

(** [place_data] called for a sequence of images, from counters in
    range. *)
Lemma place_all_returns (images : list (list (list pixel))) g
    (z c slices count : Z) :
  z_range g !! 3%nat = Some z -> z_range g !! 2%nat = Some slices ->
  channels g !! 1%nat = Some c -> channels g !! 0%nat = Some count ->
  0 < slices -> 0 < count -> 0 <= z < slices -> 0 <= c < count ->
  exists g', place_all images g = Returned g' /\
    z_range g' !! 3%nat = Some (frame_slice z slices (length images)) /\
    channels g' !! 1%nat
    = Some (frame_color z c slices count (length images)) /\
    z_range g' !! 2%nat = Some slices /\ channels g' !! 0%nat = Some count /\
    img_queue g' =
      img_queue g ++
      imap (λ i image, {| color := frame_color z c slices count i;
                          z_pos := frame_slice z slices i;
                          raveled := ravel image |}) images /\
    unfinished_tasks g' = (unfinished_tasks g + length images)%nat /\
    data g' = data g /\ acq_running g' = acq_running g.
Proof.
  intros Hz Hslices Hc Hcount Hs Hn Hzr Hcr.
  revert g z c Hz Hslices Hc Hcount Hzr Hcr.
  induction images as [|image images IH];
    intros g z c Hz Hslices Hc Hcount Hzr Hcr.
  - exists g. simpl. rewrite frame_slice_0, frame_color_0, app_nil_r by done.
    split_and!; done || (simpl; lia).
  - destruct (place_data_returns image g z c slices count)
      as (g1 & Hret & Hz1 & Hs1 & Hc1 & Hn1 & Hq1 & Hu1 & Hd1 & Hr1 & _);
      try done.
    destruct (IH g1 _ _ Hz1 Hs1 Hc1 Hn1)
      as (g' & Hret' & Hz' & Hc' & Hs' & Hn' & Hq' & Hu' & Hd' & Hr').
    { apply Z.mod_pos_bound. lia. }
    { destruct (_ =? 0); [apply Z.mod_pos_bound|]; lia. }
    exists g'. unfold place_all in *. cbn [for_each]. rewrite Hret.
    split; [done|].
    destruct (frame_tags_shift z c slices count (length images))
      as [Hzs Hcs]; try done.
    rewrite Hzs in Hz'. rewrite Hcs in Hc'.
    split_and!; try done; [| simpl; lia | congruence..].
    rewrite Hq', Hq1, <- app_assoc. f_equal.
    rewrite imap_cons, frame_slice_0, frame_color_0 by done.
    cbn [app]. f_equal.
    apply imap_ext. intros i image' _. simpl.
    destruct (frame_tags_shift z c slices count i) as [-> ->]; done.
Qed.

(** After a whole stack the slice counter is back where it was and the
    channel counter has advanced by one. *)
Lemma frame_tags_full_stack (z c slices count : Z) :
  0 <= z < slices -> 0 < count ->
  frame_slice z slices (Z.to_nat slices) = z /\
  frame_color z c slices count (Z.to_nat slices) = (c + 1) mod count.
Proof.
  intros Hz Hn. unfold frame_slice, frame_color.
  rewrite Z2Nat.id by lia.
  replace (z + slices) with (z + 1 * slices) by lia.
  rewrite Z.mod_add, Z.div_add, Z.mod_small, Z.div_small by lia. done.
Qed.

(** X8: from counters in range, [place_data] called for a sequence of
    images returns and queues the images in order, the [i]-th under slice
    [(z + i) mod slices] and channel [(c + (z + i) / slices) mod count];
    afterwards the counters stand at these values for [i] the number of
    images.  After a whole stack of [slices] images the slice counter is
    back where it was and the channel counter has advanced by one. *)
Theorem place_all_counters (images : list (list (list pixel))) g
    (z c slices count : Z) :
  z_range g !! 3%nat = Some z -> z_range g !! 2%nat = Some slices ->
  channels g !! 1%nat = Some c -> channels g !! 0%nat = Some count ->
  0 < slices -> 0 < count -> 0 <= z < slices -> 0 <= c < count ->
  exists g', place_all images g = Returned g' /\
    z_range g' !! 3%nat = Some (frame_slice z slices (length images)) /\
    channels g' !! 1%nat
    = Some (frame_color z c slices count (length images)) /\
    (forall i image, images !! i = Some image ->
       img_queue g' !! (length (img_queue g) + i)%nat
       = Some {| color := frame_color z c slices count i;
                 z_pos := frame_slice z slices i;
                 raveled := ravel image |}) /\
    length (img_queue g') = (length (img_queue g) + length images)%nat /\
    take (length (img_queue g)) (img_queue g') = img_queue g /\
    (length images = Z.to_nat slices ->
     z_range g' !! 3%nat = Some z /\
     channels g' !! 1%nat = Some ((c + 1) mod count)).
Proof.
  intros Hz Hslices Hc Hcount Hs Hn Hzr Hcr.
  destruct (place_all_returns images g z c slices count)
    as (g' & Hret & Hz' & Hc' & _ & _ & Hq' & _); try done.
  exists g'. split_and!; try done.
  - intros i image Hi. rewrite Hq', lookup_app_r by lia.
    replace (length (img_queue g) + i - length (img_queue g))%nat with i
      by lia.
    rewrite list_lookup_imap, Hi. done.
  - by rewrite Hq', length_app, length_imap.
  - by rewrite Hq', take_app_length.
  - intros Hfull. rewrite Hz', Hc', Hfull.
    destruct (frame_tags_full_stack z c slices count) as [-> ->]; done.
Qed.

End MoreViewerFacts.

(** Two slices and two channels, slice 1 and channel 1 active: three
    frames go to slices 1, 0, 1 under channels 1, 0, 0. *)
Lemma place_all_counters_witness :
  exists g', place_all [[[1; 2]; [3; 4]]; [[5; 6]; [7; 8]]; [[9; 10]; [11; 12]]]
               (set_z_range [0; 50; 2; 1] example_globals) = Returned g' /\
    z_range g' !! 3%nat = Some 0 /\ channels g' !! 1%nat = Some 1 /\
    img_queue g' !! 4%nat = Some (frame 0 0 [5; 6; 7; 8]).
Proof.
  destruct (place_all_counters
              [[[1; 2]; [3; 4]]; [[5; 6]; [7; 8]]; [[9; 10]; [11; 12]]]
              (set_z_range [0; 50; 2; 1] example_globals) 1 1 2 2)
    as (g' & Hret & Hz & Hc & Hq & _); try done.
  exists g'. split_and!; try done.
  exact (Hq 1%nat [[5; 6]; [7; 8]] eq_refl).
Defined.

(** ** The PSF viewer: what [display_napari] accepts *)

Lemma py_index_Some len i k :
  py_index len i = Some k <->
  (0 <= i < Z.of_nat len /\ k = Z.to_nat i) \/
  (- Z.of_nat len <= i < 0 /\ k = Z.to_nat (i + Z.of_nat len)).
Proof.
  unfold py_index.
  destruct (Z.leb_spec 0 i), (Z.ltb_spec i (Z.of_nat len)),
    (Z.leb_spec (- Z.of_nat len) i), (Z.ltb_spec i 0); simpl;
    (split; [intros [= <-]; lia | intros [[? ->]|[? ->]]; done || lia]).
Qed.

Lemma py_index_None len i :
  py_index len i = None <-> i < - Z.of_nat len \/ Z.of_nat len <= i.
Proof.
  unfold py_index.
  destruct (Z.leb_spec 0 i), (Z.ltb_spec i (Z.of_nat len)),
    (Z.leb_spec (- Z.of_nat len) i), (Z.ltb_spec i 0); simpl;
    (split; [intros [=]; lia | intros [?|?]; done || lia]).
Qed.

Lemma py_index_lt len i k : py_index len i = Some k -> (k < len)%nat.
Proof. rewrite py_index_Some. lia. Qed.

Lemma rows_of_concat {A} cols (image : list (list A)) :
  Forall (λ row, length row = cols) image ->
  rows_of (length image) cols (concat image) = image.
Proof.
  induction 1 as [|row image Hrow _ IH]; simpl; [done|].
  rewrite take_app_length', drop_app_length' by done. by rewrite IH.
Qed.

Lemma length_concat_rows {A} cols (image : list (list A)) :
  Forall (λ row, length row = cols) image ->
  length (concat image) = (length image * cols)%nat.
Proof.
  induction 1 as [|row image Hrow _ IH]; simpl; [done|].
  rewrite length_app, IH, Hrow. done.
Qed.

(** When the squeezed image can be broadcast into a slice: with a single
    row or a single column the samples make one value or one row of the
    slice; otherwise the image must have the shape of the slice. *)
Lemma broadcast_squeezed_is_Some {A} slice_rows slice_cols rows cols
    (image : list (list A)) :
  length image = rows -> Forall (λ row, length row = cols) image ->
  is_Some (broadcast_squeezed slice_rows slice_cols rows cols image) <->
  (((rows = 1 \/ cols = 1) /\
    (rows * cols = 1 \/ rows * cols = slice_cols)) \/
   (rows ≠ 1 /\ cols ≠ 1 /\ rows = slice_rows /\ cols = slice_cols))%nat.
Proof.
  intros Hrows Hcols.
  pose proof (length_concat_rows cols image Hcols) as Hlen.
  rewrite Hrows in Hlen. unfold broadcast_squeezed.
  destruct (Nat.eqb_spec rows 1) as [Hr|Hr],
    (Nat.eqb_spec cols 1) as [Hc|Hc]; cbn [orb].
  4:{ destruct (Nat.eqb_spec rows slice_rows),
        (Nat.eqb_spec cols slice_cols); cbn [andb];
        (split; [intros Hsome; first [lia | by destruct Hsome as [? [=]]]
                |intros Hfits; first [by eexists | exfalso; lia]]). }
  all: destruct (concat image) as [|x [|x' xs]]; cbn [length] in Hlen |- *.
  all: try match goal with
           | |- context [(?n =? ?m)%nat] => destruct (Nat.eqb_spec n m)
           end.
  all: (split; [intros Hsome; first [lia | by destruct Hsome as [? [=]]]
               |intros Hfits; first [by eexists | exfalso; lia]]).
Qed.

Section MoreDisplayFacts.
Context {pixel : Type}.
Variable to_float64 : pixel -> float.
Variables clip_0 clip_1 layers : nat.
Variables slice_rows slice_cols : nat.
Implicit Types (g : @globals pixel) (e : @element pixel).

Local Abbreviation display_napari :=
  (display_napari to_float64 clip_0 clip_1 layers slice_rows slice_cols).

(** [display_napari] with a buffer whose slices have the shape [clip]. *)
Local Abbreviation display_clip :=
  (PSFViewer.display_napari to_float64 clip_0 clip_1 layers clip_0 clip_1).

(** The buffer with the image of an element written to slice [i]. *)
Local Abbreviation written e g i :=
  (<[i := map (map to_float64) (rows_of clip_0 clip_1 (raveled e))]> (data g)).

Local Abbreviation written_to d e i :=
  (<[i := map (map to_float64) (rows_of clip_0 clip_1 (raveled e))]> d).

Lemma display_napari_accepts e g i n :
  length (raveled e) = (clip_0 * clip_1)%nat ->
  py_index (length (data g)) (z_pos e) = Some i ->
  (clip_1 = 1%nat -> clip_0 = 1%nat) ->
  - Z.of_nat layers <= color e < Z.of_nat layers ->
  unfinished_tasks g = S n ->
  display_clip (Some e) g
  = Returned (set_img_queue (img_queue g) n (set_data (written e g i) g)).
Proof.
  intros Hlen Hi Hclip Hcolor Htasks. unfold PSFViewer.display_napari, reshape.
  rewrite decide_True, Hi by done.
  destruct (converted_image to_float64 clip_0 clip_1 (raveled e) Hlen)
    as (_ & Hrows & Hcols).
  rewrite broadcast_squeezed_own_shape by done.
  replace ((clip_1 =? 1)%nat && negb (clip_0 =? 1)%nat) with false.
  2:{ destruct (Nat.eqb_spec clip_1 1) as [H1|?]; [|done].
      rewrite (Hclip H1). done. }
  destruct (py_index layers (color e)) as [k|] eqn:Hk;
    [|apply py_index_None in Hk; lia].
  cbn [unfinished_tasks set_data]. by rewrite Htasks.
Qed.

(** X9: [display_napari] returns for a queue element exactly when the
    element holds [clip[0] * clip[1]] samples, its slice index lies in the
    buffer and its channel index among the layers, each counted from the
    front or, when negative, from the end, the squeezed image can be
    broadcast into a slice of the buffer, and the queue has an unfinished
    task.  With a buffer created for [clip] the image can be broadcast
    unless [clip] asks for a single column of several (or no) rows. *)
Theorem display_napari_returns_iff e g :
  ((exists g', display_napari (Some e) g = Returned g') <->
   length (raveled e) = (clip_0 * clip_1)%nat /\
   - Z.of_nat (length (data g)) <= z_pos e < Z.of_nat (length (data g)) /\
   (((clip_0 = 1 \/ clip_1 = 1) /\
     (clip_0 * clip_1 = 1 \/ clip_0 * clip_1 = slice_cols)) \/
    (clip_0 ≠ 1 /\ clip_1 ≠ 1 /\
     clip_0 = slice_rows /\ clip_1 = slice_cols))%nat /\
   - Z.of_nat layers <= color e < Z.of_nat layers /\
   unfinished_tasks g ≠ 0%nat) /\
  ((exists g', display_clip (Some e) g = Returned g') <->
   length (raveled e) = (clip_0 * clip_1)%nat /\
   - Z.of_nat (length (data g)) <= z_pos e < Z.of_nat (length (data g)) /\
   (clip_1 = 1%nat -> clip_0 = 1%nat) /\
   - Z.of_nat layers <= color e < Z.of_nat layers /\
   unfinished_tasks g ≠ 0%nat).
Proof.
  assert (Hgeneral : forall rows cols,
    (exists g', PSFViewer.display_napari to_float64 clip_0 clip_1 layers
                  rows cols (Some e) g = Returned g') <->
    length (raveled e) = (clip_0 * clip_1)%nat /\
    - Z.of_nat (length (data g)) <= z_pos e < Z.of_nat (length (data g)) /\
    (((clip_0 = 1 \/ clip_1 = 1) /\
      (clip_0 * clip_1 = 1 \/ clip_0 * clip_1 = cols)) \/
     (clip_0 ≠ 1 /\ clip_1 ≠ 1 /\ clip_0 = rows /\ clip_1 = cols))%nat /\
    - Z.of_nat layers <= color e < Z.of_nat layers /\
    unfinished_tasks g ≠ 0%nat).
  { intros rows cols. unfold PSFViewer.display_napari, reshape.
    case_decide as Hlen; [|split; [by intros [g' ?]|by intros [? _]]].
    destruct (converted_image to_float64 clip_0 clip_1 (raveled e) Hlen)
      as (_ & Hrows & Hcols).
    pose proof (broadcast_squeezed_is_Some rows cols clip_0 clip_1 _
                  Hrows Hcols) as Hfits.
    destruct (py_index (length (data g)) (z_pos e)) as [i|] eqn:Hi.
    2:{ apply py_index_None in Hi.
        split; [by intros [g' ?]|intros (_ & ? & _); lia]. }
    apply py_index_Some in Hi.
    destruct (broadcast_squeezed _ _ _ _ _) as [slice|].
    2:{ split; [by intros [g' ?]|]. intros (_ & _ & Hfit & _).
        apply Hfits in Hfit. by destruct Hfit. }
    assert (Hfit := proj1 Hfits ltac:(by eexists)).
    destruct (py_index layers (color e)) as [k|] eqn:Hk.
    2:{ apply py_index_None in Hk.
        split; [by intros [g' ?]|intros (_ & _ & _ & ? & _); lia]. }
    apply py_index_Some in Hk. cbn [unfinished_tasks set_data].
    destruct (unfinished_tasks g) as [|n];
      [split; [by intros [g' ?]|by intros (_ & _ & _ & _ & ?)]|].
    split; [intros _|by eexists]. do 2 (split; [done || lia|]).
    split; [done|]. split; [lia|done]. }
  split; [apply Hgeneral|]. rewrite Hgeneral.
  assert ((((clip_0 = 1 \/ clip_1 = 1) /\
            (clip_0 * clip_1 = 1 \/ clip_0 * clip_1 = clip_1)) \/
           (clip_0 ≠ 1 /\ clip_1 ≠ 1 /\ clip_0 = clip_0 /\ clip_1 = clip_1))%nat
          <-> (clip_1 = 1%nat -> clip_0 = 1%nat)) as Hshape.
  { destruct (decide (clip_0 = 1%nat)) as [->|?],
      (decide (clip_1 = 1%nat)) as [->|?]; lia. }
  by rewrite Hshape.
Qed.

(** X10: when [display_napari] raises, the queue, its task count, the
    counters and the flag are as before.  A wrong number of samples
    ([ValueError]), a slice index outside the buffer ([IndexError]) or a
    squeezed image that cannot be broadcast into the slice ([ValueError])
    leaves the buffer as it was; a channel index outside the layers
    ([IndexError]) or a queue without unfinished task ([ValueError]) is
    found only after the slice has been written. *)
Theorem display_napari_raises e g exception g' :
  display_napari (Some e) g = Raised exception g' ->
  set_data (data g) g' = g /\
  ((exception = "ValueError" /\ data g' = data g /\
    length (raveled e) ≠ (clip_0 * clip_1)%nat) \/
   (exception = "IndexError" /\ data g' = data g /\
    length (raveled e) = (clip_0 * clip_1)%nat /\
    (z_pos e < - Z.of_nat (length (data g)) \/
     Z.of_nat (length (data g)) <= z_pos e)) \/
   (exception = "ValueError" /\ data g' = data g /\
    length (raveled e) = (clip_0 * clip_1)%nat /\
    - Z.of_nat (length (data g)) <= z_pos e < Z.of_nat (length (data g)) /\
    ¬ (((clip_0 = 1 \/ clip_1 = 1) /\
        (clip_0 * clip_1 = 1 \/ clip_0 * clip_1 = slice_cols)) \/
       (clip_0 ≠ 1 /\ clip_1 ≠ 1 /\
        clip_0 = slice_rows /\ clip_1 = slice_cols))%nat) \/
   (exists i slice,
      py_index (length (data g)) (z_pos e) = Some i /\
      length (raveled e) = (clip_0 * clip_1)%nat /\
      broadcast_squeezed slice_rows slice_cols clip_0 clip_1
        (map (map to_float64) (rows_of clip_0 clip_1 (raveled e)))
      = Some slice /\
      data g' = <[i := slice]> (data g) /\
      ((exception = "IndexError" /\
        (color e < - Z.of_nat layers \/ Z.of_nat layers <= color e)) \/
       (exception = "ValueError" /\
        - Z.of_nat layers <= color e < Z.of_nat layers /\
        unfinished_tasks g = 0%nat)))).
Proof.
  unfold PSFViewer.display_napari, reshape. destruct g as [r q u zr ch d w].
  case_decide as Hlen.
  - destruct (converted_image to_float64 clip_0 clip_1 (raveled e) Hlen)
      as (_ & Hrows & Hcols).
    pose proof (broadcast_squeezed_is_Some slice_rows slice_cols clip_0 clip_1
                  _ Hrows Hcols) as Hfits.
    destruct (py_index (length _) (z_pos e)) as [i|] eqn:Hi.
    + destruct (broadcast_squeezed _ _ _ _ _) as [slice|].
      * destruct (py_index layers (color e)) as [k|] eqn:Hk.
        -- cbn [unfinished_tasks set_data]. destruct u; [|done].
           intros [= <- <-]. split; [done|]. do 3 right. exists i, slice.
           apply py_index_Some in Hk. do 4 (split; [done|]). right.
           split; [done|]. split; [lia|done].
        -- intros [= <- <-]. split; [done|]. do 3 right. exists i, slice.
           apply py_index_None in Hk. do 4 (split; [done|]). by left.
      * intros [= <- <-]. split; [done|]. do 2 right. left.
        apply py_index_Some in Hi. do 3 (split; [done|]).
        split; [cbn [data] in *; lia|].
        intros Hfit. apply Hfits in Hfit. by destruct Hfit.
    + intros [= <- <-]. split; [done|]. right. left.
      apply py_index_None in Hi. done.
  - intros [= <- <-]. split; [done|]. by left.
Qed.

(** ** The PSF viewer: from [place_data] to the buffer *)

(** Slices written one after the other, front to back, fill the buffer. *)
Lemma foldl_insert_fill {A B} (pos : A -> nat) (G : A -> B)
    (els : list A) (pre rest : list B) :
  length rest = length els ->
  (forall i a, els !! i = Some a -> pos a = (length pre + i)%nat) ->
  foldl (λ d a, <[pos a := G a]> d) (pre ++ rest) els = pre ++ map G els.
Proof.
  revert pre rest. induction els as [|a els IH]; intros pre rest Hlen Hpos.
  - destruct rest; [done|discriminate].
  - destruct rest as [|r rest]; [discriminate|]. cbn [foldl map].
    rewrite (Hpos 0%nat a eq_refl), insert_app_r. cbn [insert list_insert].
    rewrite (cons_middle (G a) pre rest), (cons_middle (G a) pre (map G els)).
    rewrite !app_assoc. apply IH.
    + by injection Hlen.
    + intros i a' Hi. rewrite (Hpos (S i) a' Hi), length_app. simpl. lia.
Qed.

(** Elements that [display_napari] accepts, displayed one after the
    other. *)
Lemma display_each_accepted (els : list element) g :
  (clip_1 = 1%nat -> clip_0 = 1%nat) ->
  Forall (λ e, length (raveled e) = (clip_0 * clip_1)%nat /\
               0 <= z_pos e < Z.of_nat (length (data g)) /\
               0 <= color e < Z.of_nat layers) els ->
  (length els <= unfinished_tasks g)%nat ->
  exists g', for_each (λ e, display_clip (Some e)) els g = Returned g' /\
    data g' = foldl (λ d e, written_to d e (Z.to_nat (z_pos e))) (data g) els /\
    unfinished_tasks g' = (unfinished_tasks g - length els)%nat /\
    img_queue g' = img_queue g /\ z_range g' = z_range g /\
    channels g' = channels g /\ acq_running g' = acq_running g.
Proof.
  intros Hclip. revert g.
  induction els as [|e els IH]; intros g Hels Htasks.
  - exists g. simpl. split_and!; done || lia.
  - apply Forall_cons in Hels as [(Hlen & Hz & Hcolor) Hels].
    destruct (unfinished_tasks g) as [|n] eqn:Hn; [simpl in Htasks; lia|].
    cbn [for_each].
    rewrite (display_napari_accepts e g (Z.to_nat (z_pos e)) n)
      by (done || lia || by apply py_index_in_range).
    destruct (IH (set_img_queue (img_queue g) n
                    (set_data (written e g (Z.to_nat (z_pos e))) g)))
      as (g' & Hret & Hd & Hu & Hrest).
    { cbn [data set_img_queue set_data]. by rewrite length_insert. }
    { cbn [unfinished_tasks set_img_queue]. simpl in Htasks. lia. }
    exists g'. split; [done|]. split; [done|]. split; [|done].
    rewrite Hu. cbn [unfinished_tasks set_img_queue]. simpl. lia.
Qed.

(** X11: with the buffer and the layers as the notebook creates them (one
    slice of the shape [clip] for each of the [z_range[2]] positions, one
    layer for each of the [channels[0]] channels) and a [clip] that does not
    ask for a single column of several or no rows, a frame of [clip[0]] rows of
    [clip[1]] samples that [place_data] queues is accepted by
    [display_napari], which writes the frame itself, converted sample by
    sample, to the slice that was active when the frame was placed, and
    gives the queue its task back. *)
Theorem placed_frame_is_displayed (image : list (list pixel)) g
    (z c slices count : Z) :
  z_range g !! 3%nat = Some z -> z_range g !! 2%nat = Some slices ->
  channels g !! 1%nat = Some c -> channels g !! 0%nat = Some count ->
  0 <= z < slices -> 0 <= c < count ->
  length (data g) = Z.to_nat slices -> layers = Z.to_nat count ->
  slice_rows = clip_0 -> slice_cols = clip_1 ->
  (clip_1 = 1%nat -> clip_0 = 1%nat) ->
  length image = clip_0 -> Forall (λ row, length row = clip_1) image ->
  exists g1 e g2,
    place_data image g = Returned g1 /\ last (img_queue g1) = Some e /\
    display_napari (Some e) g1 = Returned g2 /\
    data g2 = <[Z.to_nat z := map (map to_float64) image]> (data g) /\
    data g2 !! Z.to_nat z = Some (map (map to_float64) image) /\
    unfinished_tasks g2 = unfinished_tasks g.
Proof.
  intros Hz Hslices Hc Hcount Hzr Hcr Hdata Hlayers Hsr Hsc Hclip Himage Hrows.
  rewrite Hsr, Hsc.
  destruct (place_data_returns image g z c slices count)
    as (g1 & Hret & _ & _ & _ & _ & Hq1 & Hu1 & Hd1 & _); try done || lia.
  set (e := {| color := c; z_pos := z; raveled := ravel image |}) in *.
  exists g1, e. eexists. split; [done|]. split; [by rewrite Hq1, last_snoc|].
  split.
  - apply (display_napari_accepts e g1 (Z.to_nat z) (unfinished_tasks g)).
    + simpl. unfold ravel. rewrite (length_concat_rows clip_1) by done. lia.
    + apply py_index_in_range. simpl. rewrite Hd1. lia.
    + done.
    + simpl. lia.
    + done.
  - cbn [data unfinished_tasks set_img_queue set_data raveled e].
    unfold ravel. rewrite <- Himage, rows_of_concat, Hd1 by done.
    split; [done|]. split; [|done].
    apply list_lookup_insert_eq. lia.
Qed.

(** X12: with the buffer and the layers as the notebook creates them and
    a [clip] that does not ask for a single column of several or no rows, a
    whole
    stack of frames placed from slice 0 and then displayed in the order of
    the queue fills the buffer with exactly these frames, in the order in
    which they were placed, and leaves the queue no unfinished task that it
    did not have before. *)
Theorem full_stack_fills_buffer (images : list (list (list pixel))) g
    (c slices count : Z) :
  z_range g !! 3%nat = Some 0 -> z_range g !! 2%nat = Some slices ->
  channels g !! 1%nat = Some c -> channels g !! 0%nat = Some count ->
  0 < slices -> 0 <= c < count ->
  length (data g) = Z.to_nat slices -> layers = Z.to_nat count ->
  slice_rows = clip_0 -> slice_cols = clip_1 ->
  (clip_1 = 1%nat -> clip_0 = 1%nat) ->
  length images = Z.to_nat slices ->
  Forall (λ image, length image = clip_0 /\
                   Forall (λ row, length row = clip_1) image) images ->
  exists g1 g2,
    place_all images g = Returned g1 /\
    for_each (λ e, display_napari (Some e))
      (drop (length (img_queue g)) (img_queue g1)) g1 = Returned g2 /\
    data g2 = map (map (map to_float64)) images /\
    unfinished_tasks g2 = unfinished_tasks g /\
    z_range g2 !! 3%nat = Some 0 /\
    channels g2 !! 1%nat = Some ((c + 1) mod count).
Proof.
  intros Hz Hslices Hc Hcount Hs Hcr Hdata Hlayers Hsr Hsc Hclip Hfull Himages.
  rewrite Hsr, Hsc.
  destruct (place_all_returns images g 0 c slices count)
    as (g1 & Hret & Hz1 & Hc1 & _ & _ & Hq1 & Hu1 & Hd1 & _);
    try done || lia.
  rewrite Hfull in Hz1, Hc1.
  destruct (frame_tags_full_stack 0 c slices count) as [Hz0 Hc0];
    [lia..|]. rewrite Hz0 in Hz1. rewrite Hc0 in Hc1.
  set (queued := imap (λ i image, {| color := frame_color 0 c slices count i;
                                     z_pos := frame_slice 0 slices i;
                                     raveled := ravel image |}) images) in *.
  assert (Hpos : forall i e, queued !! i = Some e ->
            z_pos e = Z.of_nat i /\ 0 <= color e < count /\
            exists image, images !! i = Some image /\
                          raveled e = ravel image).
  { intros i e. unfold queued. rewrite list_lookup_imap.
    destruct (images !! i) as [image|] eqn:Hi; [|done]. intros [= <-].
    apply lookup_lt_Some in Hi as Hlt. simpl. split; [|split].
    - unfold frame_slice. rewrite Z.add_0_l. apply Z.mod_small. lia.
    - unfold frame_color. apply Z.mod_pos_bound. lia.
    - by exists image. }
  exists g1. rewrite Hq1, drop_app_length.
  destruct (display_each_accepted queued g1 Hclip)
    as (g2 & Hret2 & Hd2 & Hu2 & _ & Hzr2 & Hch2 & _).
  { apply Forall_lookup. intros i e Hi.
    destruct (Hpos i e Hi) as (Hzi & Hci & image & Himage & Hrav).
    apply lookup_lt_Some in Hi. unfold queued in Hi.
    rewrite length_imap in Hi. rewrite Hrav, Hd1.
    rewrite Forall_lookup in Himages.
    destruct (Himages i image Himage) as [Hrows Hcols].
    unfold ravel. rewrite (length_concat_rows clip_1), Hrows by done.
    split; [done|]. lia. }
  { unfold queued. rewrite length_imap. lia. }
  exists g2. split; [done|]. split; [done|].
  rewrite Hzr2, Hch2. split; [|split; [|done]].
  - rewrite Hd2, Hd1.
    rewrite <- (app_nil_l (data g)), (foldl_insert_fill
      (λ e, Z.to_nat (z_pos e))
      (λ e, map (map to_float64) (rows_of clip_0 clip_1 (raveled e)))).
    + rewrite app_nil_l. apply list_eq. intros i.
      rewrite !list_lookup_fmap. unfold queued.
      rewrite list_lookup_imap.
      destruct (images !! i) as [image|] eqn:Hi; [|done]. simpl.
      rewrite Forall_lookup in Himages.
      destruct (Himages i image Hi) as [Hrows Hcols].
      unfold ravel. by rewrite <- Hrows, rows_of_concat.
    + unfold queued. rewrite length_imap. lia.
    + intros i e Hi. destruct (Hpos i e Hi) as (-> & _). simpl. lia.
  - rewrite Hu2, Hu1. unfold queued. rewrite length_imap. lia.
Qed.

End MoreDisplayFacts.

(** A frame for layer 5 of 2: the [IndexError] comes after slice 1 of the
    buffer was written. *)
Lemma display_napari_raises_witness :
  let o := display_napari of_int 2 2 2 2 2 (Some (frame 5 1 [1; 2; 3; 4]))
             example_globals in
  o = Raised "IndexError" (state_of o) /\
  set_data (data example_globals) (state_of o) = example_globals /\
  data (state_of o) !! 1%nat
  = Some [[of_int 1; of_int 2]; [of_int 3; of_int 4]].
Proof.
  intros o. split; [reflexivity|].
  destruct (display_napari_raises of_int 2 2 2 2 2 (frame 5 1 [1; 2; 3; 4])
              example_globals "IndexError" (state_of o) eq_refl)
    as [Hsame _].
  split; [exact Hsame|reflexivity].
Defined.

(** The example: slice 2 of 3 and channel 1 of 2 active. *)
Lemma placed_frame_is_displayed_witness :
  exists g1 e g2,
    place_data [[1; 2]; [3; 4]] example_globals = Returned g1 /\
    last (img_queue g1) = Some e /\
    display_napari of_int 2 2 2 2 2 (Some e) g1 = Returned g2 /\
    data g2 !! 2%nat = Some [[of_int 1; of_int 2]; [of_int 3; of_int 4]].
Proof.
  destruct (placed_frame_is_displayed of_int 2 2 2 2 2 [[1; 2]; [3; 4]]
              example_globals 2 1 3 2)
    as (g1 & e & g2 & Hplace & Hlast & Hshow & _ & Hslice & _);
    try reflexivity; try lia; [by repeat constructor|].
  exists g1, e, g2. split; [exact Hplace|]. split; [exact Hlast|].
  split; [exact Hshow|exact Hslice].
Defined.

(** Three frames placed into the idle viewer and displayed. *)
Lemma full_stack_fills_buffer_witness :
  exists g1 g2,
    place_all [[[1; 2]; [3; 4]]; [[5; 6]; [7; 8]]; [[9; 10]; [11; 12]]]
      (shared idle_viewer) = Returned g1 /\
    for_each (λ e, display_napari of_int 2 2 2 2 2 (Some e))
      (drop 0 (img_queue g1)) g1 = Returned g2 /\
    data g2 = map (map (map of_int))
                [[[1; 2]; [3; 4]]; [[5; 6]; [7; 8]]; [[9; 10]; [11; 12]]].
Proof.
  destruct (full_stack_fills_buffer of_int 2 2 2 2 2
              [[[1; 2]; [3; 4]]; [[5; 6]; [7; 8]]; [[9; 10]; [11; 12]]]
              (shared idle_viewer) 0 3 2)
    as (g1 & g2 & Hplace & Hshow & Hdata & _);
    try reflexivity; try lia; [by repeat (constructor || split)|].
  exists g1, g2. split; [exact Hplace|]. split; [exact Hshow|exact Hdata].
Defined.

(** ** The PSF viewer: the part of an image that [grab_image] queues *)

Lemma nat_half_spec (m : nat) : (2 * (m / 2) <= m < 2 * (m / 2) + 2)%nat.
Proof.
  pose proof (Nat.div_mod_eq m 2). pose proof (Nat.mod_upper_bound m 2). lia.
Qed.

(** Linear arithmetic with halves of integers and of natural numbers. *)
Ltac halves :=
  repeat match goal with
         | |- context [(?m / 2)%nat] =>
             let H := fresh in
             pose proof (nat_half_spec m) as H;
             generalize dependent (m / 2)%nat; intros
         end;
  zify; Z.div_mod_to_equations; lia.

(** [a[(n-c)//2:(n+c)//2]] on a sequence of [n] elements with [c <= n]:
    [c] elements, with a margin of [(n-c)//2] in front. *)
Lemma py_slice_centre {A} (n c : nat) (a : list A) :
  length a = n -> (c <= n)%nat ->
  py_slice ((Z.of_nat n - Z.of_nat c) / 2) ((Z.of_nat n + Z.of_nat c) / 2) a
  = take c (drop ((n - c) / 2) a).
Proof.
  intros Ha Hc. unfold py_slice, slice_bound. rewrite Ha.
  destruct (Z.ltb_spec ((Z.of_nat n - Z.of_nat c) / 2) 0) as [Hneg|_];
    [exfalso; revert Hneg; halves|].
  destruct (Z.ltb_spec ((Z.of_nat n + Z.of_nat c) / 2) 0) as [Hneg|_];
    [exfalso; revert Hneg; halves|].
  f_equal; [|f_equal]; halves.
Qed.

(** With [c > n] the same slice starts [ceil((c-n)/2)] elements before the
    end, or at the front when the sequence is shorter than that. *)
Lemma py_slice_short {A} (n c : nat) (a : list A) :
  length a = n -> (n < c)%nat ->
  py_slice ((Z.of_nat n - Z.of_nat c) / 2) ((Z.of_nat n + Z.of_nat c) / 2) a
  = drop (n - Nat.min n ((c - n + 1) / 2)) a.
Proof.
  intros Ha Hc. unfold py_slice, slice_bound. rewrite Ha.
  destruct (Z.ltb_spec ((Z.of_nat n - Z.of_nat c) / 2) 0) as [_|Hpos];
    [|exfalso; revert Hpos; halves].
  destruct (Z.ltb_spec ((Z.of_nat n + Z.of_nat c) / 2) 0) as [Hneg|_];
    [exfalso; revert Hneg; halves|].
  rewrite take_ge.
  - f_equal. halves.
  - rewrite length_drop, Ha. halves.
Qed.

(** Whatever the sequence, the slice holds at most [c] elements. *)
Lemma length_py_slice_le {A} (n c : nat) (a : list A) :
  (length (py_slice ((Z.of_nat n - Z.of_nat c) / 2)
                    ((Z.of_nat n + Z.of_nat c) / 2) a) <= c)%nat.
Proof.
  unfold py_slice, slice_bound. rewrite length_take, length_drop.
  destruct (Z.ltb_spec ((Z.of_nat n - Z.of_nat c) / 2) 0),
    (Z.ltb_spec ((Z.of_nat n + Z.of_nat c) / 2) 0);
    halves.
Qed.

Lemma length_concat_le {A} (c : nat) (rows : list (list A)) :
  Forall (λ row, (length row <= c)%nat) rows ->
  (length (concat rows) <= length rows * c)%nat.
Proof.
  induction 1 as [|row rows Hrow _ IH]; simpl; [done|].
  rewrite length_app. lia.
Qed.

Section GrabImage.
Context {pixel : Type}.
Variables clip_0 clip_1 : nat.
Implicit Types (g : @globals pixel) (image : list (list pixel)).

Local Abbreviation image_clipped := (image_clipped clip_0 clip_1).
Local Abbreviation grab_image := (grab_image clip_0 clip_1).

(** X13: of an image of [rows] rows of [cols] samples that is at least as
    large as [clip], [grab_image] queues the central part: [clip[0]] rows of
    [clip[1]] samples, sample [(i, j)] of which is sample
    [((rows-clip[0])//2 + i, (cols-clip[1])//2 + j)] of the image; it
    returns the image itself, not the part. *)
Theorem grab_image_queues_central_part {M : Type} image (metadata : M) g
    (rows cols : nat) :
  length image = rows -> Forall (λ row, length row = cols) image ->
  (0 < rows)%nat -> (clip_0 <= rows)%nat -> (clip_1 <= cols)%nat ->
  let first_row := ((rows - clip_0) / 2)%nat in
  let first_col := ((cols - clip_1) / 2)%nat in
  let part := map (λ row, take clip_1 (drop first_col row))
                  (take clip_0 (drop first_row image)) in
  grab_image image metadata g = ((image, metadata), place_data part g) /\
  length part = clip_0 /\ Forall (λ row, length row = clip_1) part /\
  length (ravel part) = (clip_0 * clip_1)%nat /\
  (forall i j, (i < clip_0)%nat -> (j < clip_1)%nat ->
     part !! i ≫= (.!! j) = image !! (first_row + i)%nat ≫= (.!! (first_col + j)%nat)).
Proof.
  intros Hrows Hcols Hpos Hc0 Hc1 first_row first_col part.
  assert (Hshape : shape image = (rows, cols)).
  { unfold shape. rewrite Hrows. destruct image as [|row image];
      [simpl in Hrows; lia|]. by apply Forall_cons in Hcols as [-> _]. }
  assert (Hpart : image_clipped image = part).
  { unfold PSFViewer.image_clipped. rewrite Hshape. cbn [fst snd].
    rewrite (py_slice_centre rows clip_0) by done. fold first_row.
    unfold part. apply Forall_fmap_ext_1.
    apply Forall_take, Forall_drop.
    eapply Forall_impl; [exact Hcols|]. intros row Hrow.
    by apply py_slice_centre. }
  assert (Hlen : length part = clip_0).
  { unfold part, first_row. rewrite length_map, length_take, length_drop, Hrows.
    halves. }
  assert (Hall : Forall (λ row, length row = clip_1) part).
  { unfold part. apply Forall_fmap, Forall_take, Forall_drop.
    eapply Forall_impl; [exact Hcols|]. intros row Hrow. simpl.
    rewrite length_take, length_drop, Hrow. unfold first_col.
    halves. }
  split; [unfold PSFViewer.grab_image; by rewrite Hpart|].
  split; [done|]. split; [done|].
  split; [unfold ravel; by rewrite (length_concat_rows clip_1), Hlen|].
  intros i j Hi Hj. unfold part.
  rewrite list_lookup_fmap, lookup_take, decide_True, lookup_drop by done.
  destruct (image !! (first_row + i)%nat) as [row|]; [|done]. simpl.
  by rewrite lookup_take, decide_True, lookup_drop.
Qed.

(** X14: of an image with fewer rows than [clip[0]], [grab_image] does not
    queue all the rows but only the last [ceil((clip[0]-rows)/2)] of them
    (all of them when there are no more), because the negative start of the
    slice counts from the end; the queued element then holds fewer than
    [clip[0] * clip[1]] samples, and [display_napari] refuses it with
    [ValueError], the buffer unchanged. *)
Theorem grab_image_smaller_than_clip image (rows : nat) :
  length image = rows -> (rows < clip_0)%nat -> (0 < clip_1)%nat ->
  let kept := Nat.min rows ((clip_0 - rows + 1) / 2) in
  length (image_clipped image) = kept /\
  (exists columns, image_clipped image = map columns (drop (rows - kept) image)) /\
  (length (ravel (image_clipped image)) < clip_0 * clip_1)%nat /\
  (forall to_float64 layers slice_rows slice_cols g e,
     raveled e = ravel (image_clipped image) ->
     display_napari to_float64 clip_0 clip_1 layers slice_rows slice_cols
       (Some e) g
     = Raised "ValueError" g).
Proof.
  intros Hrows Hsmall Hc1 kept.
  assert (Hrowspart : image_clipped image =
            map (py_slice ((Z.of_nat (snd (shape image)) - Z.of_nat clip_1) / 2)
                          ((Z.of_nat (snd (shape image)) + Z.of_nat clip_1) / 2))
                (drop (rows - kept) image)).
  { unfold PSFViewer.image_clipped. cbv zeta.
    replace (fst (shape image)) with rows by (by rewrite <- Hrows).
    by rewrite (py_slice_short rows clip_0). }
  assert (Hlen : length (image_clipped image) = kept).
  { rewrite Hrowspart, length_map, length_drop, Hrows. unfold kept. lia. }
  assert (Hfew : (length (ravel (image_clipped image)) < clip_0 * clip_1)%nat).
  { unfold ravel.
    pose proof (length_concat_le clip_1 (image_clipped image)) as Hle.
    rewrite Hlen in Hle.
    assert (kept <= rows)%nat by (unfold kept; lia).
    assert (kept * clip_1 < clip_0 * clip_1)%nat by nia.
    enough (length (concat (image_clipped image)) <= kept * clip_1)%nat by lia.
    apply Hle. rewrite Hrowspart. apply Forall_fmap, Forall_forall.
    intros row _. apply length_py_slice_le. }
  split; [done|]. split; [by eexists|]. split; [done|].
  intros to_float64 layers slice_rows slice_cols g e He.
  unfold display_napari, reshape. rewrite decide_False; [done|].
  rewrite He. lia.
Qed.

End GrabImage.

(** A 4 x 4 image clipped to 2 x 2: rows 1 and 2, columns 1 and 2. *)
Lemma grab_image_queues_central_part_witness :
  snd (grab_image 2 2 [[1; 2; 3; 4]; [5; 6; 7; 8]; [9; 10; 11; 12];
                       [13; 14; 15; 16]] "metadata" example_globals)
  = place_data [[6; 7]; [10; 11]] example_globals.
Proof.
  destruct (grab_image_queues_central_part 2 2
              [[1; 2; 3; 4]; [5; 6; 7; 8]; [9; 10; 11; 12]; [13; 14; 15; 16]]
              "metadata" example_globals 4 4) as [Hgrab _];
    [reflexivity | by repeat constructor | lia | lia | lia |].
  rewrite Hgrab. reflexivity.
Defined.

(** Six rows clipped to 8 x 2: only the last row is queued. *)
Lemma grab_image_smaller_than_clip_witness :
  length (image_clipped 8 2 [[1; 2]; [3; 4]; [5; 6]; [7; 8]; [9; 10];
                             [11; 12]]) = 1%nat /\
  display_napari of_int 8 2 2 8 2
    (Some (frame 0 0 (ravel (image_clipped 8 2
             [[1; 2]; [3; 4]; [5; 6]; [7; 8]; [9; 10]; [11; 12]]))))
    example_globals
  = Raised "ValueError" example_globals.
Proof.
  destruct (grab_image_smaller_than_clip 8 2
              [[1; 2]; [3; 4]; [5; 6]; [7; 8]; [9; 10]; [11; 12]] 6)
    as (Hlen & _ & _ & Hshow); try reflexivity; try lia.
  split; [exact Hlen|]. apply Hshow. reflexivity.
Defined.

(** ** The PSF viewer: frames between producer and workers *)

Section Frames.
Context {pixel : Type}.
Implicit Types (g : @globals pixel) (e : @element pixel)
  (v : @viewer pixel) (image : list (list pixel)).

(** Once both counters can be read, [place_data] queues the frame, whatever
    happens afterwards, and never changes the number of counters. *)
Lemma place_data_always_queues image g (z c : Z) :
  channels g !! 1%nat = Some c -> z_range g !! 3%nat = Some z ->
  let g' := state_of (place_data image g) in
  img_queue g' =
    img_queue g ++ [{| color := c; z_pos := z; raveled := ravel image |}] /\
  unfinished_tasks g' = S (unfinished_tasks g) /\
  length (channels g') = length (channels g) /\
  length (z_range g') = length (z_range g).
Proof.
  intros Hc Hz. unfold place_data. rewrite Hc, Hz.
  set (e := {| color := c; z_pos := z; raveled := ravel image |}).
  destruct (z_range (put e g) !! 2%nat) as [slices|]; [|done].
  destruct (slices =? 0); [done|]. cbv zeta.
  destruct (_ =? 0); [|by cbn; rewrite length_insert].
  destruct (channels _ !! 0%nat) as [count|];
    [|by cbn; rewrite length_insert].
  destruct (count =? 0); cbn; by rewrite !length_insert.
Qed.

(** X15: when both active counters can be read, [place_data] queues the
    frame before it does any arithmetic.  It returns exactly when the number
    of slices is not zero and, in case the slice counter wraps to zero, the
    number of channels is not zero either; with zero slices it raises
    [ZeroDivisionError] with the frame queued and both counters unchanged,
    and with zero channels at the wrap it raises [ZeroDivisionError] with the
    frame queued and the slice counter already advanced. *)
Theorem place_data_queues_before_failing image g (z c slices count : Z) :
  z_range g !! 3%nat = Some z -> z_range g !! 2%nat = Some slices ->
  channels g !! 1%nat = Some c -> channels g !! 0%nat = Some count ->
  let e := {| color := c; z_pos := z; raveled := ravel image |} in
  let o := place_data image g in
  img_queue (state_of o) = img_queue g ++ [e] /\
  ((exists g', o = Returned g') <->
   slices ≠ 0 /\ ((z + 1) mod slices = 0 -> count ≠ 0)) /\
  (slices = 0 -> o = Raised "ZeroDivisionError" (put e g)) /\
  (slices ≠ 0 -> (z + 1) mod slices = 0 -> count = 0 ->
   o = Raised "ZeroDivisionError"
         (set_z_range (<[3%nat := 0]> (z_range g)) (put e g))).
Proof.
  intros Hz Hslices Hc Hcount e o.
  split; [by apply place_data_always_queues|].
  unfold o, place_data. rewrite Hc, Hz. fold e.
  change (z_range (put e g)) with (z_range g). rewrite Hslices.
  destruct (Z.eqb_spec slices 0) as [->|Hs].
  { split; [|done]. split; [intros [g' [=]]|]. by intros [? _]. }
  cbv zeta. destruct (Z.eqb_spec ((z + 1) mod slices) 0) as [Hwrap|Hnowrap].
  - cbn [channels set_z_range]. change (channels (put e g)) with (channels g).
    rewrite Hcount, Hwrap. destruct (Z.eqb_spec count 0) as [->|Hn].
    + split; [|done]. split; [intros [g' [=]]|]. intros [_ Hcontra].
      by destruct Hcontra.
    + split; [|done]. split; [|by eexists]. done.
  - split; [|done]. split; [|by eexists]. done.
Qed.

(** *** Workers of two runs *)

Lemma run_cons a (schedule : list action) v :
  run (a :: schedule) v = run schedule (act a v).
Proof. done. Qed.

(** A generator that has ended stays as it is, whatever happens next. *)
Lemma ended_generator_stays (schedule : list action) v (j : nat) c y :
  generators v !! j = Some (c, y) ->
  yield_img_step {| vars := shared v; at_ := c; yielded := y |} = None ->
  generators (run schedule v) !! j = Some (c, y).
Proof.
  revert v. induction schedule as [|a schedule IH]; intros v Hj Hend; [done|].
  rewrite run_cons. assert (Hc : c = done \/ c = queue_empty_raised).
  { unfold yield_img_step in Hend. simpl in Hend. destruct c; try done; auto. }
  apply IH.
  - destruct a as [| | image|i]; cbn [act generators]; try done.
    + rewrite lookup_app_l; [done|]. by eapply lookup_lt_Some.
    + destruct (generators v !! i) as [[ci yi]|] eqn:Hi; [|done].
      destruct (yield_img_step {| vars := shared v; at_ := ci; yielded := yi |})
        as [s'|] eqn:Hs; [|done].
      cbn [generators]. rewrite list_lookup_insert_ne; [done|].
      intros ->. rewrite Hj in Hi. injection Hi as <- <-. congruence.
  - unfold yield_img_step. simpl. by destruct Hc as [->| ->].
Qed.

(** X16: two [yield_img] workers, as a second Start leaves them when the
    worker of the first run is still reading out the queue: if one worker
    has found a last element in the queue (it is about to take it) and
    another has found more than one element (it is about to take one), and
    one element is left, then the first worker takes it and the second
    worker's [get] finds the queue empty; that worker has ended with the
    exception, and stays so whatever is done afterwards. *)
Theorem second_worker_finds_queue_empty v (i j : nat) yi yj e :
  i ≠ j ->
  generators v !! i = Some (drain_get, yi) ->
  generators v !! j = Some (inner_get, yj) ->
  img_queue (shared v) = [e] ->
  let v' := run [resume i; resume j] v in
  generators v' !! i = Some (drain_test, yi ++ [e]) /\
  generators v' !! j = Some (queue_empty_raised, yj) /\
  img_queue (shared v') = [] /\
  acq_running (shared v') = acq_running (shared v) /\
  (forall schedule,
     generators (run schedule v') !! j = Some (queue_empty_raised, yj)).
Proof.
  intros Hij Hi Hj Hq v'.
  assert (Hli : (i < length (generators v))%nat) by by eapply lookup_lt_Some.
  assert (Hlj : (j < length (generators v))%nat) by by eapply lookup_lt_Some.
  assert (Hv' : v' =
    {| shared := set_img_queue [] (unfinished_tasks (shared v)) (shared v);
       generators := <[j := (queue_empty_raised, yj)]>
                       (<[i := (drain_test, yi ++ [e])]> (generators v)) |}).
  { unfold v', run. cbn [foldl act]. rewrite Hi.
    unfold yield_img_step, get_and_yield. cbn [at_ vars yielded].
    rewrite Hq. cbn [generators shared vars at_ yielded].
    rewrite list_lookup_insert_ne, Hj by done.
    cbn [at_ vars yielded img_queue set_img_queue]. done. }
  assert (Hj' : generators v' !! j = Some (queue_empty_raised, yj)).
  { rewrite Hv'. cbn [generators]. apply list_lookup_insert_eq.
    by rewrite length_insert. }
  split; [|split; [done|split; [by rewrite Hv'|split; [by rewrite Hv'|]]]].
  - rewrite Hv'. cbn [generators].
    rewrite list_lookup_insert_ne by done. by apply list_lookup_insert_eq.
  - intros schedule. by apply ended_generator_stays.
Qed.

(** *** No frame is lost or taken twice *)

Lemma taken_app (gens gens' : list (control * list (@element pixel))) g :
  taken {| shared := g; generators := gens ++ gens' |}
  = taken {| shared := g; generators := gens |} ++
    taken {| shared := g; generators := gens' |}.
Proof. unfold taken. cbn [generators]. by rewrite fmap_app, join_app. Qed.

Lemma taken_started (started : list worker) g :
  taken {| shared := g;
           generators := map (λ _, (outer_test, [])) started |} = [].
Proof. unfold taken. simpl. by induction started. Qed.

Lemma taken_insert v (i : nat) c y c' y' :
  generators v !! i = Some (c, y) ->
  exists before after,
    taken v = before ++ y ++ after /\
    forall g, taken {| shared := g;
                       generators := <[i := (c', y')]> (generators v) |}
              = before ++ y' ++ after.
Proof.
  intros Hi. exists (mjoin (snd <$> take i (generators v))),
    (mjoin (snd <$> drop (S i) (generators v))).
  unfold taken. cbn [generators]. split.
  - rewrite <- (take_drop_middle (generators v) i (c, y)) at 1 by done.
    by rewrite fmap_app, join_app.
  - intros _. rewrite insert_take_drop by by eapply lookup_lt_Some.
    by rewrite fmap_app, join_app.
Qed.

Lemma act_conserves_frames a v :
  (1 < length (channels (shared v)))%nat ->
  (3 < length (z_range (shared v)))%nat ->
  (1 < length (channels (shared (act a v))))%nat /\
  (3 < length (z_range (shared (act a v))))%nat /\
  raveled <$> (taken (act a v) ++ img_queue (shared (act a v)))
  ≡ₚ (raveled <$> (taken v ++ img_queue (shared v))) ++
     (ravel <$> placed [a]).
Proof.
  intros Hch Hzr. destruct a as [| | image|i].
  - cbn [act shared]. rewrite taken_app, taken_started, !app_nil_r.
    unfold start_acq. destruct (acq_running (shared v)); simpl; [done|].
    case_decide; simpl; [|done]. by rewrite length_insert.
  - cbn [act shared placed omap]. by rewrite app_nil_r.
  - destruct (lookup_lt_is_Some_2 _ _ Hch) as [c Hc].
    destruct (lookup_lt_is_Some_2 _ _ Hzr) as [z Hz].
    destruct (place_data_always_queues image (shared v) z c Hc Hz)
      as (Hq & _ & Hlc & Hlz).
    cbn [act shared]. rewrite Hlc, Hlz, Hq. split; [done|]. split; [done|].
    change (taken {| shared := _; generators := generators v |})
      with (taken v).
    by rewrite !app_assoc, !fmap_app.
  - cbn [act placed omap]. rewrite app_nil_r.
    destruct (generators v !! i) as [[c y]|] eqn:Hi; [|done].
    destruct (yield_img_step _) as [s'|] eqn:Hs; [|done].
    destruct (taken_insert v i c y (at_ s') (yielded s') Hi)
      as (before & after & Hbefore & Hafter).
    cbn [shared]. rewrite Hafter, Hbefore.
    assert (Hvars : channels (vars s') = channels (shared v) /\
                    z_range (vars s') = z_range (shared v)).
    { unfold yield_img_step, get_and_yield, goto in Hs.
      cbn [at_ vars yielded] in Hs.
      destruct c; try discriminate; injection Hs as <-; try done;
        by destruct (img_queue (shared v)). }
    destruct Hvars as [-> ->]. split; [done|]. split; [done|].
    destruct (yield_img_step_effect _ _ Hs)
      as [[-> ->]|(_ & e & Hq & ->)]; [done|].
    cbn [vars yielded] in Hq |- *. rewrite Hq.
    rewrite !fmap_app, fmap_cons, <- !app_assoc.
    do 2 f_equiv. simpl. by rewrite Permutation_middle.
Qed.

(** X17: whatever the buttons, the producer and the workers do, in
    whatever order and with however many workers, the images taken from the
    queue by the workers together with those still queued are the ones that
    were there before and the ones placed since, each exactly once. *)
Theorem frames_neither_lost_nor_doubled (schedule : list action) v :
  (1 < length (channels (shared v)))%nat ->
  (3 < length (z_range (shared v)))%nat ->
  raveled <$> (taken (run schedule v) ++ img_queue (shared (run schedule v)))
  ≡ₚ (raveled <$> (taken v ++ img_queue (shared v))) ++
     (ravel <$> placed schedule).
Proof.
  revert v. induction schedule as [|a schedule IH]; intros v Hch Hzr.
  - simpl. by rewrite app_nil_r.
  - destruct (act_conserves_frames a v Hch Hzr) as (Hch' & Hzr' & Hact).
    rewrite run_cons, (IH (act a v) Hch' Hzr'), Hact, <- app_assoc.
    f_equiv. rewrite <- fmap_app. f_equal.
    change (a :: schedule) with ([a] ++ schedule).
    unfold placed. by rewrite omap_app.
Qed.

End Frames.

(** The example with no slices: the frame is queued, then the remainder by
    zero fails. *)
Lemma place_data_queues_before_failing_witness :
  place_data [[1; 2]; [3; 4]] (set_z_range [0; 50; 0; 0] example_globals)
  = Raised "ZeroDivisionError"
      (put (frame 1 0 [1; 2; 3; 4])
           (set_z_range [0; 50; 0; 0] example_globals)).
Proof.
  destruct (place_data_queues_before_failing [[1; 2]; [3; 4]]
              (set_z_range [0; 50; 0; 0] example_globals) 0 1 0 2
              eq_refl eq_refl eq_refl eq_refl) as (_ & _ & Hzero & _).
  exact (Hzero eq_refl).
Defined.

(** Start, two frames, Stop, and a quick second Start with a third frame:
    after eighteen actions the flag is set, the first worker is about to
    take the last element and the second worker has seen two; the second
    worker ends with the exception. *)
Lemma second_worker_finds_queue_empty_witness :
  acq_running (shared (run (take 18 quick_restart) idle_viewer)) = true /\
  generators (run [resume 0; resume 1]
                (run (take 18 quick_restart) idle_viewer)) !! 1%nat
  = Some (queue_empty_raised, []).
Proof.
  split; [vm_compute; reflexivity|].
  destruct (second_worker_finds_queue_empty
              (run (take 18 quick_restart) idle_viewer) 0 1
              [frame 0 0 [1; 2; 3; 4]; frame 0 1 [5; 6; 7; 8]] []
              (frame 0 0 [9; 10; 11; 12]))
    as (_ & Hj & _);
    [discriminate | vm_compute; reflexivity | vm_compute; reflexivity
    | vm_compute; reflexivity |].
  exact Hj.
Defined.

Lemma frames_neither_lost_nor_doubled_witness :
  raveled <$> (taken (run quick_restart idle_viewer) ++
               img_queue (shared (run quick_restart idle_viewer)))
  ≡ₚ [[1; 2; 3; 4]; [5; 6; 7; 8]; [9; 10; 11; 12]].
Proof.
  apply (frames_neither_lost_nor_doubled quick_restart idle_viewer);
    simpl; lia.
Defined.

(** ** The PSF viewer: simulated stacks *)

Lemma concat_replicate {A} (n m : nat) (x : A) :
  concat (replicate n (replicate m x)) = replicate (n * m) x.
Proof.
  induction n as [|n IH]; simpl; [done|]. by rewrite IH, replicate_add.
Qed.

(** X18: from counters in range, and when no brightness of the stack
    raises, [simulate_data] places one image of the size [clip] for each of
    the [z_range[2]] slices, the image for slice index [zz] holding the
    constant [(ii+1) * (zz+1) / (z_range[2]+1) * clim[1]]; it returns, each
    queued element holds [clip[0] * clip[1]] samples, and afterwards the
    active slice is the one it started from and the active channel the
    next one.  When the brightness for some slice index raises, the images
    before it have been placed and [simulate_data] raises the same
    exception. *)
Theorem simulate_data_places_stack (clim_1 : Z) (clip_0 clip_1 : nat)
    (ii : Z) (g : @globals float) (z c slices count : Z) :
  z_range g !! 3%nat = Some z -> z_range g !! 2%nat = Some slices ->
  channels g !! 1%nat = Some c -> channels g !! 0%nat = Some count ->
  0 <= z < slices -> 0 <= c < count ->
  (forall bs,
     Forall2 (λ zz b, brightness ii zz slices clim_1 = returns b)
       (seqZ 0 slices) bs ->
     simulate_data clim_1 clip_0 clip_1 ii g
     = place_all (ones_times clip_0 clip_1 <$> bs) g /\
     exists g', simulate_data clim_1 clip_0 clip_1 ii g = Returned g' /\
       z_range g' !! 3%nat = Some z /\
       channels g' !! 1%nat = Some ((c + 1) mod count) /\
       length (img_queue g') = (length (img_queue g) + Z.to_nat slices)%nat /\
       (forall (i : nat) b, bs !! i = Some b ->
          img_queue g' !! (length (img_queue g) + i)%nat
          = Some {| color := frame_color z c slices count i;
                    z_pos := frame_slice z slices i;
                    raveled :=
                      replicate (clip_0 * clip_1) (mul (of_int 1) b) |})) /\
  (forall (k : nat) bs exception,
     (k < Z.to_nat slices)%nat ->
     Forall2 (λ zz b, brightness ii zz slices clim_1 = returns b)
       (seqZ 0 (Z.of_nat k)) bs ->
     brightness ii (Z.of_nat k) slices clim_1 = raises exception ->
     exists g', place_all (ones_times clip_0 clip_1 <$> bs) g = Returned g' /\
       simulate_data clim_1 clip_0 clip_1 ii g = Raised exception g').
Proof.
  intros Hz Hslices Hc Hcount Hzr Hcr.
  set (body := λ (zz : Z) (g' : @globals float),
         match z_range g' !! 2%nat with
         | None => Raised "IndexError" g'
         | Some slices' =>
             match brightness ii zz slices' clim_1 with
             | raises exception => Raised exception g'
             | returns b => simulate_image b clip_0 clip_1 g'
             end
         end).
  assert (Hsame : forall (l : list Z) bs g0 z0 c0,
    Forall2 (λ zz b, brightness ii zz slices clim_1 = returns b) l bs ->
    z_range g0 !! 3%nat = Some z0 -> z_range g0 !! 2%nat = Some slices ->
    channels g0 !! 1%nat = Some c0 -> channels g0 !! 0%nat = Some count ->
    0 <= z0 < slices -> 0 <= c0 < count ->
    forall rest,
      for_each body (l ++ rest) g0
      = match place_all (ones_times clip_0 clip_1 <$> bs) g0 with
        | Returned g1 => for_each body rest g1
        | Raised exception g1 => Raised exception g1
        end).
  { intros l bs g0 z0 c0 Hbs. revert g0 z0 c0.
    induction Hbs as [|zz b l bs Hb _ IH];
      intros g0 z0 c0 Hz0 Hs0 Hc0 Hn0 Hzr0 Hcr0 rest; [done|].
    unfold place_all. cbn [app for_each fmap list_fmap].
    unfold body at 1. rewrite Hs0, Hb. unfold simulate_image.
    destruct (place_data_returns (ones_times clip_0 clip_1 b)
                g0 z0 c0 slices count)
      as (g1 & Hret & Hz1 & Hs1 & Hc1 & Hn1 & _); try done || lia.
    rewrite Hret. eapply IH; try done.
    - apply Z.mod_pos_bound. lia.
    - destruct (_ =? 0); [apply Z.mod_pos_bound|]; lia. }
  split.
  - intros bs Hbs.
    assert (Heq : simulate_data clim_1 clip_0 clip_1 ii g
                  = place_all (ones_times clip_0 clip_1 <$> bs) g).
    { unfold simulate_data. rewrite Hslices. fold body.
      rewrite <- (app_nil_r (seqZ 0 slices)).
      rewrite (Hsame _ bs g z c Hbs) by done.
      by destruct (place_all _ g). }
    split; [done|]. rewrite Heq.
    destruct (place_all_returns (ones_times clip_0 clip_1 <$> bs) g
                z c slices count)
      as (g' & Hret & Hz' & Hc' & _ & _ & Hq' & _); try done || lia.
    assert (Hlen : length (ones_times clip_0 clip_1 <$> bs) = Z.to_nat slices).
    { rewrite length_fmap, <- (Forall2_length _ _ _ Hbs). apply length_seqZ. }
    rewrite Hlen in Hz', Hc'.
    destruct (frame_tags_full_stack z c slices count) as [Hz0 Hc0];
      [lia..|]. rewrite Hz0 in Hz'. rewrite Hc0 in Hc'.
    exists g'. split; [done|]. split; [done|]. split; [done|]. split.
    + by rewrite Hq', length_app, length_imap, Hlen.
    + intros i b Hi. rewrite Hq', lookup_app_r by lia.
      replace (length (img_queue g) + i - length (img_queue g))%nat with i
        by lia.
      rewrite list_lookup_imap, list_lookup_fmap, Hi. simpl.
      unfold ravel, ones_times. by rewrite concat_replicate.
  - intros k bs exception Hk Hbs Hraise.
    destruct (place_all_returns (ones_times clip_0 clip_1 <$> bs) g
                z c slices count)
      as (g' & Hret & _ & _ & Hs' & _); try done || lia.
    exists g'. split; [done|].
    unfold simulate_data. rewrite Hslices. fold body.
    assert (Hsplit : seqZ 0 slices
                     = seqZ 0 (Z.of_nat k) ++
                       Z.of_nat k :: seqZ (Z.succ (Z.of_nat k))
                                          (slices - Z.of_nat k - 1)).
    { replace slices with (Z.of_nat k + Z.succ (slices - Z.of_nat k - 1))
        at 1 by lia.
      rewrite seqZ_app, Z.add_0_l by lia.
      rewrite (seqZ_cons (Z.of_nat k)), Z.pred_succ by lia. done. }
    rewrite Hsplit.
    rewrite (Hsame _ bs g z c Hbs) by done. rewrite Hret.
    cbn [for_each]. unfold body at 1. by rewrite Hs', Hraise.
Qed.

(** A stack of three simulated images of 2 x 2 samples. *)
Lemma simulate_data_places_stack_witness :
  exists g', simulate_data 300 2 2 0 simulated_globals = Returned g' /\
    z_range g' !! 3%nat = Some 1 /\ channels g' !! 1%nat = Some 0 /\
    length (img_queue g') = 3%nat.
Proof.
  destruct (simulate_data_places_stack 300 2 2 0 simulated_globals 1 1 3 2)
    as [Hstack _]; try reflexivity; try lia.
  destruct (Hstack [of_int 75; of_int 150; of_int 225])
    as (_ & g' & Hret & Hz & Hc & Hlen & _).
  { repeat constructor; vm_compute; reflexivity. }
  exists g'. split; [exact Hret|]. split; [exact Hz|]. split; [exact Hc|].
  exact Hlen.
Defined.

(** ** The cell that sets up the Tiger controller *)

Section TigerSetupFacts.
Variable SerialResponse : nat -> string.
Variable str : float -> string.

Local Abbreviation after_polls := (after_polls SerialResponse).
Local Abbreviation wait_ready := (wait_ready SerialResponse).
Local Abbreviation send_and_wait := (send_and_wait SerialResponse).
Local Abbreviation setup_tiger := (setup_tiger SerialResponse str).
Local Abbreviation polls k := (mjoin (replicate k poll_calls)).

(** A wait returns as soon as the fuel reaches the first pass after which
    the controller is seen ready. *)
Lemma wait_ready_is_Some fuel s :
  (exists k, (k <= fuel)%nat /\ ready (after_polls k s) = "N") ->
  is_Some (wait_ready fuel s).
Proof.
  revert s. induction fuel as [|fuel IH]; intros s (k & Hk & Hready);
    cbn [OPM.wait_ready]; case_decide as Hs; try done.
  - by replace k with 0%nat in Hready by lia.
  - destruct k as [|k]; [done|]. apply IH. exists k. split; [lia|].
    by rewrite <- after_polls_shift.
Qed.

(** A serial command and its wait: the command, then at least one pass of
    the polling loop, the last of which, and none before, reads ['N']. *)
Lemma send_and_wait_returns fuel command s s' :
  send_and_wait fuel command s = Some s' ->
  exists k, (k < fuel)%nat /\
    reads s' = (reads s + S k)%nat /\
    slept_ms s' = slept_ms s + 500 * Z.of_nat (S k) /\
    calls s' = calls s ++ [serial_command command] ++ polls (S k) /\
    SerialResponse (reads s + k)%nat = "N" /\
    forall j, (j < k)%nat -> SerialResponse (reads s + j)%nat ≠ "N".
Proof.
  unfold OPM.send_and_wait. cbv zeta.
  intros (k & Hk & -> & Hready & Hbusy)%wait_ready_returns.
  destruct k as [|k]; [done|]. exists k.
  rewrite reads_after_polls, slept_after_polls, calls_after_polls.
  rewrite ready_after_polls in Hready. cbn [reads slept_ms calls issue] in *.
  split; [lia|]. split; [done|]. split; [done|].
  split; [by rewrite <- app_assoc|]. split; [done|].
  intros j Hj. specialize (Hbusy (S j) ltac:(lia)).
  by rewrite ready_after_polls in Hbusy.
Qed.

Lemma send_and_wait_is_Some fuel command s :
  (exists n, (n < fuel)%nat /\ SerialResponse (reads s + n)%nat = "N") ->
  is_Some (send_and_wait fuel command s).
Proof.
  intros (n & Hn & Hready). unfold OPM.send_and_wait. cbv zeta.
  apply wait_ready_is_Some. exists (S n). split; [lia|].
  by rewrite ready_after_polls.
Qed.

Lemma send_and_wait_busy fuel command s :
  (forall k, SerialResponse k ≠ "N") -> send_and_wait fuel command s = None.
Proof.
  intros Hbusy. unfold OPM.send_and_wait. cbv zeta.
  apply wait_ready_out_of_fuel. intros [|j] _; [done|].
  rewrite ready_after_polls. apply Hbusy.
Qed.

(** X19: when the set-up cell returns, the traffic with the controller is:
    repeated commands on, then the five commands in the order of the cell
    (repeated commands switched off and on again after the second), each
    followed by at least one pass of the polling loop, and repeated commands
    off; a command is sent only after the read before it returned ['N'], and
    each wait ended at the first such read. *)
Theorem setup_tiger_polls_after_each_command fuel
    (scan_axis_speed scan_axis_start_mm scan_axis_end_mm : float) s0 s :
  setup_tiger fuel scan_axis_speed scan_axis_start_mm scan_axis_end_mm s0
  = Some s ->
  exists k1 k2 k3 k4 k5 : nat,
    (k1 < fuel /\ k2 < fuel /\ k3 < fuel /\ k4 < fuel /\ k5 < fuel)%nat /\
    calls s =
      calls s0 ++
      [repeated_commands "No"; serial_command "SPEED Y=.25"]
      ++ polls (S k1) ++
      [serial_command "SPEED X=.25"] ++ polls (S k2) ++
      [repeated_commands "Yes"; repeated_commands "No";
       serial_command (speed_command str scan_axis_speed)]
      ++ polls (S k3) ++
      [serial_command "1SCAN X? Y=0 Z=9 F=0"] ++ polls (S k4) ++
      [serial_command
         (range_command str scan_axis_start_mm scan_axis_end_mm)]
      ++ polls (S k5) ++
      [repeated_commands "Yes"] /\
    (let r1 := (reads s0 + S k1)%nat in
     let r2 := (r1 + S k2)%nat in
     let r3 := (r2 + S k3)%nat in
     let r4 := (r3 + S k4)%nat in
     let r5 := (r4 + S k5)%nat in
     reads s = r5 /\
     slept_ms s = slept_ms s0 + 500 * Z.of_nat (r5 - reads s0) /\
     forall r, (reads s0 <= r < r5)%nat ->
       SerialResponse r = "N" <->
       S r = r1 \/ S r = r2 \/ S r = r3 \/ S r = r4 \/ S r = r5).
Proof.
  unfold OPM.setup_tiger. cbv zeta. intros Hrun.
  destruct (send_and_wait fuel "SPEED Y=.25" _) as [s1|] eqn:H1;
    cbn [mbind option_bind] in Hrun; [|done].
  destruct (send_and_wait fuel "SPEED X=.25" s1) as [s2|] eqn:H2;
    cbn [mbind option_bind] in Hrun; [|done].
  destruct (send_and_wait fuel (speed_command _ _) _) as [s3|] eqn:H3;
    cbn [mbind option_bind] in Hrun; [|done].
  destruct (send_and_wait fuel "1SCAN X? Y=0 Z=9 F=0" s3) as [s4|] eqn:H4;
    cbn [mbind option_bind] in Hrun; [|done].
  destruct (send_and_wait fuel (range_command _ _ _) s4) as [s5|] eqn:H5;
    cbn [mbind option_bind] in Hrun; [|done].
  injection Hrun as <-.
  apply send_and_wait_returns in H1 as (k1 & Hk1 & Hr1 & Hs1 & Hc1 & Hn1 & Hb1).
  apply send_and_wait_returns in H2 as (k2 & Hk2 & Hr2 & Hs2 & Hc2 & Hn2 & Hb2).
  apply send_and_wait_returns in H3 as (k3 & Hk3 & Hr3 & Hs3 & Hc3 & Hn3 & Hb3).
  apply send_and_wait_returns in H4 as (k4 & Hk4 & Hr4 & Hs4 & Hc4 & Hn4 & Hb4).
  apply send_and_wait_returns in H5 as (k5 & Hk5 & Hr5 & Hs5 & Hc5 & Hn5 & Hb5).
  cbn [reads slept_ms calls issue] in *.
  exists k1, k2, k3, k4, k5. split; [lia|]. split.
  - rewrite Hc5, Hc4, Hc3, Hc2, Hc1. rewrite <- !app_assoc. done.
  - cbv zeta. split; [lia|]. split; [lia|].
    intros r Hr. rewrite Hr1 in *. rewrite Hr2 in *. rewrite Hr3 in *.
    rewrite Hr4 in *.
    assert (Hcase :
      (exists j, (j <= k1)%nat /\ r = (reads s0 + j)%nat) \/
      (exists j, (j <= k2)%nat /\ r = (reads s0 + S k1 + j)%nat) \/
      (exists j, (j <= k3)%nat /\ r = (reads s0 + S k1 + S k2 + j)%nat) \/
      (exists j, (j <= k4)%nat /\
                 r = (reads s0 + S k1 + S k2 + S k3 + j)%nat) \/
      (exists j, (j <= k5)%nat /\
                 r = (reads s0 + S k1 + S k2 + S k3 + S k4 + j)%nat)).
    { destruct (decide (r < reads s0 + S k1)%nat);
        [left; exists (r - reads s0)%nat; lia|].
      destruct (decide (r < reads s0 + S k1 + S k2)%nat);
        [right; left; exists (r - (reads s0 + S k1))%nat; lia|].
      destruct (decide (r < reads s0 + S k1 + S k2 + S k3)%nat);
        [do 2 right; left; exists (r - (reads s0 + S k1 + S k2))%nat; lia|].
      destruct (decide (r < reads s0 + S k1 + S k2 + S k3 + S k4)%nat);
        [do 3 right; left;
         exists (r - (reads s0 + S k1 + S k2 + S k3))%nat; lia|].
      do 4 right.
      exists (r - (reads s0 + S k1 + S k2 + S k3 + S k4))%nat. lia. }
    destruct Hcase as [(j & Hj & ->)|[(j & Hj & ->)|[(j & Hj & ->)|
                       [(j & Hj & ->)|(j & Hj & ->)]]]].
    + destruct (decide (j = k1)) as [->|Hne]; [split; [lia|done]|].
      split; [intros Hready; by destruct (Hb1 j ltac:(lia))|lia].
    + destruct (decide (j = k2)) as [->|Hne]; [split; [lia|done]|].
      split; [intros Hready; by destruct (Hb2 j ltac:(lia))|lia].
    + destruct (decide (j = k3)) as [->|Hne]; [split; [lia|done]|].
      split; [intros Hready; by destruct (Hb3 j ltac:(lia))|lia].
    + destruct (decide (j = k4)) as [->|Hne]; [split; [lia|done]|].
      split; [intros Hready; by destruct (Hb4 j ltac:(lia))|lia].
    + destruct (decide (j = k5)) as [->|Hne]; [split; [lia|done]|].
      split; [intros Hready; by destruct (Hb5 j ltac:(lia))|lia].
Qed.

(** X20: the set-up cell returns when, from every read on, the controller
    reports ['N'] within the bound of a wait; with a controller that never
    reports ['N'] it does not return, whatever the bound: it stays in the
    wait after the first command. *)
Theorem setup_tiger_returns_or_waits
    (scan_axis_speed scan_axis_start_mm scan_axis_end_mm : float) s0 :
  (forall fuel,
     (forall r, exists n, (n < fuel)%nat /\ SerialResponse (r + n)%nat = "N") ->
     exists s,
       setup_tiger fuel scan_axis_speed scan_axis_start_mm scan_axis_end_mm s0
       = Some s) /\
  ((forall k, SerialResponse k ≠ "N") ->
   forall fuel,
     setup_tiger fuel scan_axis_speed scan_axis_start_mm scan_axis_end_mm s0
     = None /\
     send_and_wait fuel "SPEED Y=.25" (issue (repeated_commands "No") s0)
     = None).
Proof.
  split.
  - intros fuel Hready. unfold OPM.setup_tiger. cbv zeta.
    destruct (send_and_wait_is_Some fuel "SPEED Y=.25"
                (issue (repeated_commands "No") s0) (Hready _)) as [s1 ->].
    cbn [mbind option_bind].
    destruct (send_and_wait_is_Some fuel "SPEED X=.25" s1 (Hready _))
      as [s2 ->].
    cbn [mbind option_bind].
    destruct (send_and_wait_is_Some fuel
                (speed_command str scan_axis_speed)
                (issue (repeated_commands "No")
                   (issue (repeated_commands "Yes") s2)) (Hready _))
      as [s3 ->].
    cbn [mbind option_bind].
    destruct (send_and_wait_is_Some fuel "1SCAN X? Y=0 Z=9 F=0" s3
                (Hready _)) as [s4 ->].
    cbn [mbind option_bind].
    destruct (send_and_wait_is_Some fuel
                (range_command str scan_axis_start_mm scan_axis_end_mm) s4
                (Hready _)) as [s5 ->].
    cbn [mbind option_bind]. by eexists.
  - intros Hbusy fuel. unfold OPM.setup_tiger. cbv zeta.
    by rewrite send_and_wait_busy.
Qed.

End TigerSetupFacts.

(** A controller that is busy at every second read: each wait takes two
    passes, ten reads and five seconds in all. *)
Lemma setup_tiger_polls_after_each_command_witness :
  exists s,
    setup_tiger ready_at_odd_reads (λ _, "0.02") 2
      (of_int 1) (of_int 0) (of_int 5) no_calls = Some s /\
    reads s = 10%nat /\ slept_ms s = 5000.
Proof.
  destruct (setup_tiger ready_at_odd_reads (λ _, "0.02") 2
              (of_int 1) (of_int 0) (of_int 5) no_calls) as [s|] eqn:Hs;
    [|vm_compute in Hs; discriminate].
  exists s. split; [reflexivity|].
  destruct (setup_tiger_polls_after_each_command ready_at_odd_reads
              (λ _, "0.02") 2 (of_int 1) (of_int 0) (of_int 5) no_calls s Hs)
    as (k1 & k2 & k3 & k4 & k5 & Hk & _ & Hreads & Hslept & Hn).
  cbv zeta in *. cbn [reads slept_ms no_calls] in *.
  assert (k1 = 1 /\ k2 = 1 /\ k3 = 1 /\ k4 = 1 /\ k5 = 1)%nat
    as (-> & -> & -> & -> & ->).
  { destruct Hk as (? & ? & ? & ? & ?).
    pose proof (proj2 (Hn 0%nat ltac:(lia))) as Hread0.
    destruct k1 as [|k1]; [by specialize (Hread0 ltac:(lia))|].
    pose proof (proj2 (Hn 2%nat ltac:(lia))) as Hread2.
    destruct k2 as [|k2]; [by specialize (Hread2 ltac:(lia))|].
    pose proof (proj2 (Hn 4%nat ltac:(lia))) as Hread4.
    destruct k3 as [|k3]; [by specialize (Hread4 ltac:(lia))|].
    pose proof (proj2 (Hn 6%nat ltac:(lia))) as Hread6.
    destruct k4 as [|k4]; [by specialize (Hread6 ltac:(lia))|].
    pose proof (proj2 (Hn 8%nat ltac:(lia))) as Hread8.
    destruct k5 as [|k5]; [by specialize (Hread8 ltac:(lia))|].
    lia. }
  split; [exact Hreads|exact Hslept].
Defined.

Lemma setup_tiger_returns_or_waits_witness :
  setup_tiger always_busy (λ _, "0.02") 1000
    (of_int 1) (of_int 0) (of_int 5) no_calls = None.
Proof.
  destruct (setup_tiger_returns_or_waits always_busy (λ _, "0.02")
              (of_int 1) (of_int 0) (of_int 5) no_calls) as [_ Hwaits].
  apply Hwaits. intros k. discriminate.
Defined.
